(** * clickhouse-monitor: the sampling loop, its shutdown handshake and the
      chart renderer of [main.go], embedded and verified.

    The development follows the layout of [main.go]:
    - [F64]       binary64 arithmetic, the semantics of Go's [float64];
    - [time]      the parts of Go's [time] package the program calls;
    - [Measurement], [collectMetrics], [generateChart] as in the source;
    - [Machine]   the two threads of [main] (the control thread and the
                  sampling goroutine) as an interleaving step function. *)

From Stdlib Require Import ZArith List String Bool Lia.
From Stdlib Require Import Floats.SpecFloat.
From stdpp Require Import base list strings.

Local Open Scope Z_scope.

(* ===================================================================== *)
(** ** float64                                                            *)
(* ===================================================================== *)

(** Go's [float64] is IEEE 754 binary64.  Its values and operations are the
    ones of [SpecFloat] at precision 53 and maximal exponent 1024; every
    operation rounds to nearest, ties to even. *)
Module F64.

Definition prec : Z := 53.
Definition emax : Z := 1024.

Definition float64 : Type := spec_float.

(** The conversion [float64(n)] of an integer. *)
Definition of_int (n : Z) : float64 := binary_normalize prec emax n 0 false.

Definition add (x y : float64) : float64 := SFadd prec emax x y.
Definition mul (x y : float64) : float64 := SFmul prec emax x y.
Definition div (x y : float64) : float64 := SFdiv prec emax x y.

(** Go's [x <= y] and [x == y] on [float64]. *)
Definition leb (x y : float64) : bool := SFleb x y.
Definition eqb (x y : float64) : bool := SFeqb x y.

Definition zero : float64 := S754_zero false.

(** The value denoted by the decimal literal [n/d] (such as [0.3], written
    [decimal 3 10]): the binary64 number nearest to the fraction. *)
Definition decimal (n d : Z) : float64 := div (of_int n) (of_int d).

End F64.

Abbreviation float64 := F64.float64.

(* ===================================================================== *)
(** ** package time                                                       *)
(* ===================================================================== *)

Module time.

(** A [time.Time] is an instant; it is represented by its position on the
    time line, in nanoseconds.  A [time.Duration] is an [int64] count of
    nanoseconds. *)
Definition Time : Type := Z.
Definition Duration : Type := Z.

Definition minDuration : Duration := - 2 ^ 63.
Definition maxDuration : Duration := 2 ^ 63 - 1.

Definition Millisecond : Duration := 1000000.
Definition Second : Duration := 1000000000.

(** [t.Sub(u)]: the duration [t - u], and the maximal (minimal) duration
    when the difference does not fit. *)
Definition Sub (t u : Time) : Duration :=
  if maxDuration <? t - u then maxDuration
  else if t - u <? minDuration then minDuration
  else t - u.

(** [d.Seconds()]:
<<
    sec := d / Second
    nsec := d % Second
    return float64(sec) + float64(nsec)/1e9
>> *)
Definition Seconds (d : Duration) : float64 :=
  let sec := Z.quot d Second in
  let nsec := Z.rem d Second in
  F64.add (F64.of_int sec) (F64.div (F64.of_int nsec) (F64.of_int 1000000000)).

(** [d.Milliseconds()]: [int64(d) / 1e6], an integer division that
    truncates toward zero. *)
Definition Milliseconds (d : Duration) : Z := Z.quot d 1000000.

End time.

(* ===================================================================== *)
(** ** The data model                                                     *)
(* ===================================================================== *)

Record Measurement : Type := mkMeasurement {
  timestamp : time.Time;
  connections : Z;
  queryDuration : time.Duration
}.

(** [plotter.XY] and [plotter.XYs]. *)
Module plotter.
Record XY : Type := mkXY { X : float64; Y : float64 }.
Abbreviation XYs := (list XY).

(** The plotters the program adds to a plot: the line and the scatter
    returned by [NewLinePoints] (both hold the copied data) and the grid. *)
Inductive Plotter : Type :=
| Line (data : XYs)
| Scatter (data : XYs)
| Grid.
End plotter.

Module plot.
Record Plot : Type := mkPlot {
  Title : string;
  XLabel : string;
  YLabel : string;
  plotters : list plotter.Plotter
}.

(** [plot.New()]. *)
Definition New : Plot := mkPlot "" "" "" [].

Definition setTitle (s : string) (p : Plot) : Plot :=
  mkPlot s (XLabel p) (YLabel p) (plotters p).
Definition setXLabel (s : string) (p : Plot) : Plot :=
  mkPlot (Title p) s (YLabel p) (plotters p).
Definition setYLabel (s : string) (p : Plot) : Plot :=
  mkPlot (Title p) (XLabel p) s (plotters p).
(** [p.Add(ps...)]. *)
Definition Add (ps : list plotter.Plotter) (p : Plot) : Plot :=
  mkPlot (Title p) (XLabel p) (YLabel p) (plotters p ++ ps).
End plot.

Module vg.
(** A [vg.Length]: a number of points, or the library's constant
    [vg.Millimeter]. *)
Inductive Length : Type :=
| Points (pt : float64)
| Millimeter.
End vg.

(** The canvas of [vgimg.New(w, h)]. *)
Record Canvas : Type := mkCanvas {
  canvas_w : vg.Length;
  canvas_h : vg.Length
}.

(** [draw.Tiles]. *)
Record Tiles : Type := mkTiles {
  Rows : nat;
  Cols : nat;
  PadX : vg.Length;
  PadY : vg.Length;
  PadTop : vg.Length;
  PadBottom : vg.Length;
  PadLeft : vg.Length;
  PadRight : vg.Length
}.

(* ===================================================================== *)
(** ** Effects                                                            *)
(* ===================================================================== *)

(** What the program does to the outside, in the order it does it. *)
Inductive event : Type :=
| EvLog (msg : string)                       (* log.Println, log.Printf *)
| EvPrintln (msg : string) (count : Z)        (* fmt.Println(msg, count) *)
| EvDraw (j i : nat) (p : plot.Plot) (t : Tiles) (img : Canvas)
                                              (* plots[j][i].Draw(canvases[j][i]) *)
| EvCreate (filename : string)                (* os.Create succeeded *)
| EvWrite (filename : string) (img : Canvas)  (* png.WriteTo(w), bytes sent *)
| EvClose (filename : string)                 (* the deferred w.Close() *)
| EvFatal (msg : string).                     (* log.Fatal(err) *)

(** The state both threads of [main] share: the variable [measurements]
    (the Measurement Log) and the effects so far. *)
Record World : Type := mkWorld {
  measurements : list Measurement;
  output : list event
}.

Definition emit (evs : list event) (w : World) : World :=
  mkWorld (measurements w) (output w ++ evs).

Definition append_measurement (m : Measurement) (w : World) : World :=
  mkWorld (measurements w ++ [m]) (output w).

(* ===================================================================== *)
(** ** collectMetrics                                                     *)
(* ===================================================================== *)

(** The outcome of [conn.QueryRow(...).Scan(&count)]. *)
Inductive QueryResult : Type :=
| QueryOk (count : Z)
| QueryErr (err : string).

(** What the outside supplies to one call of [collectMetrics]: the clock
    reading of [time.Now()], the outcome of the query, and the clock reading
    at the moment the query has returned (the one [time.Since] uses). *)
Record Tick : Type := mkTick {
  tick_start : time.Time;
  tick_result : QueryResult;
  tick_end : time.Time
}.

Definition collectMetrics (tk : Tick) : Measurement * list event :=
  let start := tick_start tk in
  match tick_result tk with
  | QueryErr err =>
      (mkMeasurement start 0 0,
       [EvLog ("Error querying ClickHouse: " +:+ err)])
  | QueryOk count =>
      let connections := count in
      let duration := time.Sub (tick_end tk) start in
      (mkMeasurement start connections duration,
       [EvPrintln "Collected metrics" count])
  end.

(* ===================================================================== *)
(** ** generateChart                                                      *)
(* ===================================================================== *)

(** What the outside supplies to one call of [generateChart]: whether
    [plotter.NewLinePoints] rejects a series, the formatted clock reading
    used in the file name, and the outcomes of [os.Create] and of
    [png.WriteTo]. *)
Record RenderEnv : Type := mkRenderEnv {
  NewLinePoints_err : plotter.XYs -> option string;
  now_formatted : string;
  Create_err : option string;
  WriteTo_err : option string
}.

Definition zeroXY : plotter.XY := plotter.mkXY F64.zero F64.zero.

Definition setX (x : float64) (p : plotter.XY) : plotter.XY :=
  plotter.mkXY x (plotter.Y p).
Definition setY (y : float64) (p : plotter.XY) : plotter.XY :=
  plotter.mkXY (plotter.X p) y.

(** The body of the loop [for i, m := range measurements]. *)
Definition pointsStep (startTime : time.Time)
    (pts : plotter.XYs * plotter.XYs) (im : nat * Measurement)
    : plotter.XYs * plotter.XYs :=
  let '(connectionPts, durationPts) := pts in
  let '(i, m) := im in
  let t := time.Seconds (time.Sub (timestamp m) startTime) in
  let connectionPts := alter (setX t) i connectionPts in
  let connectionPts :=
    alter (setY (F64.of_int (connections m))) i connectionPts in
  let durationPts := alter (setX t) i durationPts in
  let durationPts :=
    alter (setY (F64.of_int (time.Milliseconds (queryDuration m)))) i
      durationPts in
  (connectionPts, durationPts).

(** "Prepare data points": both series are allocated with [n] zero points
    and filled index by index. *)
Definition dataPoints (startTime : time.Time) (ms : list Measurement)
    : plotter.XYs * plotter.XYs :=
  let n := length ms in
  let connectionPts := replicate n zeroXY in
  let durationPts := replicate n zeroXY in
  foldl (pointsStep startTime) (connectionPts, durationPts)
    (zip (seq 0 n) ms).

Definition connectionsPlot (line1 : plotter.XYs) : plot.Plot :=
  plot.Add [plotter.Grid]
    (plot.Add [plotter.Line line1; plotter.Scatter line1]
      (plot.setYLabel "Number of Connections"
        (plot.setXLabel "Time (seconds)"
          (plot.setTitle "Active Connections" plot.New)))).

Definition durationPlot (line2 : plotter.XYs) : plot.Plot :=
  plot.Add [plotter.Grid]
    (plot.Add [plotter.Line line2; plotter.Scatter line2]
      (plot.setYLabel "Duration (ms)"
        (plot.setXLabel "Time (seconds)"
          (plot.setTitle "Query Duration" plot.New)))).

(** [vgimg.New(vg.Points(800*1.5), vg.Points(800*2))]. *)
Definition img : Canvas :=
  mkCanvas
    (vg.Points (F64.mul (F64.of_int 800) (F64.decimal 15 10)))
    (vg.Points (F64.mul (F64.of_int 800) (F64.of_int 2))).

Definition tiles : Tiles :=
  mkTiles 2 1 vg.Millimeter vg.Millimeter
    (vg.Points (F64.of_int 10)) (vg.Points (F64.of_int 10))
    (vg.Points (F64.of_int 10)) (vg.Points (F64.of_int 10)).

Definition filename (env : RenderEnv) : string :=
  "clickhouse-metrics-" +:+ now_formatted env +:+ ".png".

(** [generateChart(measurements)]: the result is the returned error, if any,
    and the world after the call. *)
Definition generateChart (env : RenderEnv) (w : World)
    : option string * World :=
  match measurements w with
  | [] => (Some "no measurements to plot", w)
  | m0 :: _ =>
      let startTime := timestamp m0 in
      let '(connectionPts, durationPts) :=
        dataPoints startTime (measurements w) in
      match NewLinePoints_err env connectionPts with
      | Some err => (Some err, w)
      | None =>
          match NewLinePoints_err env durationPts with
          | Some err => (Some err, w)
          | None =>
              let w1 :=
                emit [EvDraw 0 0 (connectionsPlot connectionPts) tiles img;
                      EvDraw 1 0 (durationPlot durationPts) tiles img] w in
              match Create_err env with
              | Some err => (Some ("error creating file: " +:+ err), w1)
              | None =>
                  let w2 := emit [EvCreate (filename env)] w1 in
                  match WriteTo_err env with
                  | Some err =>
                      (Some ("error writing PNG: " +:+ err),
                       emit [EvClose (filename env)] w2)
                  | None =>
                      (None,
                       emit [EvWrite (filename env) img;
                             EvLog ("Chart saved as " +:+ filename env);
                             EvClose (filename env)] w2)
                  end
              end
          end
      end
  end.

(* ===================================================================== *)
(** ** main: the control thread and the sampling goroutine                *)
(* ===================================================================== *)

(** [main], from the [go] statement on.  The control thread waits for the
    signal, sends on the unbuffered channel [done], and renders.  The
    goroutine loops over [select]: it receives from [done] and returns when
    the control thread is blocked in its send, and otherwise takes the
    [default] branch (collect, append, sleep).  A send on an unbuffered
    channel completes together with the matching receive, so the two are one
    step, [LHandshake]. *)
Module Machine.

Inductive MainPC : Type :=
| MWaitSignal                    (* blocked in  <-sigChan *)
| MSend                          (* signal received, about to send *)
| MBlocked                       (* blocked in  done <- true *)
| MAfterSend                     (* the send has returned *)
| MDone (err : option string).   (* generateChart has returned *)

Inductive SamplerPC : Type :=
| SSelect                        (* at the select statement *)
| SCollected (m : Measurement)   (* collectMetrics returned m *)
| SSleep                         (* appended, in time.Sleep *)
| SReturned.                     (* received from done, returned *)

Record State : Type := mkState {
  mainPC : MainPC;
  samplerPC : SamplerPC;
  world : World
}.

(** One step of one thread (the handshake is a step of both); a label
    carries what the outside supplies to the step. *)
Inductive label : Type :=
| LSignal
| LSendBlock
| LHandshake
| LCollect (tk : Tick)
| LAppend
| LWake
| LRender (env : RenderEnv).

Definition init : State :=
  mkState MWaitSignal SSelect
    (mkWorld []
       [EvLog "Starting monitoring. Press Ctrl+C to stop and generate the chart..."]).

Definition step (s : State) (l : label) : option State :=
  match l, mainPC s, samplerPC s with
  | LSignal, MWaitSignal, spc => Some (mkState MSend spc (world s))
  | LSendBlock, MSend, spc => Some (mkState MBlocked spc (world s))
  | LHandshake, MBlocked, SSelect =>
      Some (mkState MAfterSend SReturned (world s))
  | LCollect _, MBlocked, SSelect => None
  | LCollect tk, mpc, SSelect =>
      let '(measurement, evs) := collectMetrics tk in
      Some (mkState mpc (SCollected measurement) (emit evs (world s)))
  | LAppend, mpc, SCollected measurement =>
      Some (mkState mpc SSleep (append_measurement measurement (world s)))
  | LWake, mpc, SSleep => Some (mkState mpc SSelect (world s))
  | LRender env, MAfterSend, spc =>
      let w :=
        emit [EvLog "Stopping monitoring and generating chart..."]
          (world s) in
      let '(err, w') := generateChart env w in
      let w'' :=
        match err with
        | Some e => emit [EvFatal e] w'
        | None => w'
        end in
      Some (mkState (MDone err) spc w'')
  | _, _, _ => None
  end.

(** An execution: the steps of a schedule, in order. *)
Fixpoint run (s : State) (ls : list label) : option State :=
  match ls with
  | [] => Some s
  | l :: ls' =>
      match step s l with
      | Some s' => run s' ls'
      | None => None
      end
  end.

(** The schedule of one full turn of the goroutine's loop. *)
Definition tick_labels (tk : Tick) : list label :=
  [LCollect tk; LAppend; LWake].

(** The Measurement a tick yields. *)
Definition measure (tk : Tick) : Measurement := fst (collectMetrics tk).

Definition is_collect (l : label) : option Tick :=
  match l with
  | LCollect tk => Some tk
  | _ => None
  end.

(** The ticks of a schedule, in order. *)
Definition ticks_of (ls : list label) : list Tick := omap is_collect ls.

(** The Measurement the goroutine holds and has not appended yet. *)
Definition pending (s : State) : list Measurement :=
  match samplerPC s with
  | SCollected m => [m]
  | _ => []
  end.

Definition handshake_done (s : State) : bool :=
  match mainPC s with
  | MAfterSend | MDone _ => true
  | _ => false
  end.

End Machine.

(* ===================================================================== *)
(** ** What the claims speak of                                           *)
(* ===================================================================== *)

(** The relative time of a Measurement, as the loop computes it. *)
Definition relativeTime (startTime : time.Time) (m : Measurement) : float64 :=
  time.Seconds (time.Sub (timestamp m) startTime).

(** The point of series A (connections) and of series B (latency) that
    belongs to a Measurement. *)
Definition pointA (startTime : time.Time) (m : Measurement) : plotter.XY :=
  plotter.mkXY (relativeTime startTime m) (F64.of_int (connections m)).

Definition pointB (startTime : time.Time) (m : Measurement) : plotter.XY :=
  plotter.mkXY (relativeTime startTime m)
    (F64.of_int (time.Milliseconds (queryDuration m))).

(** The canvases the events of a call draw on or write out. *)
Definition canvases_of (evs : list event) : list Canvas :=
  omap (fun ev =>
          match ev with
          | EvDraw _ _ _ _ c => Some c
          | EvWrite _ c => Some c
          | _ => None
          end) evs.

(** A latency in milliseconds, fractions included: the binary64 number
    nearest to [d / 10^6].  This is the reading of "queryLatency expressed in
    milliseconds" that keeps the sub-millisecond part. *)
Definition latency_ms (d : time.Duration) : float64 :=
  F64.div (F64.of_int d) (F64.of_int 1000000).

(** Scenario 1 of the specification: five Measurements taken 300 ms apart,
    from the instant [t0] on, with counts 3, 5, 5, 2, 4 and latencies 10, 12,
    9, 15, 11 ms. *)
Definition scenario_log (t0 : time.Time) : list Measurement :=
  [mkMeasurement (t0 + 0) 3 10000000;
   mkMeasurement (t0 + 300000000) 5 12000000;
   mkMeasurement (t0 + 600000000) 5 9000000;
   mkMeasurement (t0 + 900000000) 2 15000000;
   mkMeasurement (t0 + 1200000000) 4 11000000].

Definition sample_log : list Measurement := scenario_log 0.

(** An outside in which the renderer meets no failure. *)
Definition quiet_env : RenderEnv :=
  mkRenderEnv (fun _ => None) "20240101-120000" None None.

Definition sample_tick : Tick := mkTick 0 (QueryOk 3) 10000000.

Definition failed_tick : Tick := mkTick 1000 (QueryErr "timeout") 5001000.

(** An outside in which the file cannot be created. *)
Definition failing_env : RenderEnv :=
  mkRenderEnv (fun _ => None) "20240101-120000" (Some "permission denied") None.

(** The Measurement Log invariant: every timestamp is at least the one
    before it. *)
Fixpoint chronological (ms : list Measurement) : Prop :=
  match ms with
  | m1 :: ((m2 :: _) as tl) => timestamp m1 <= timestamp m2 /\ chronological tl
  | _ => True
  end.

(* ===================================================================== *)
(** ** Rounding to nearest, as arithmetic on fractions                    *)
(* ===================================================================== *)

(** The definitions below describe what the bit-level operations of
    [SpecFloat] compute on the non-negative numbers this program handles;
    the lemmas of the next part prove it. *)

(** The fraction [N/D] rounded to the nearest integer, ties to even. *)
Definition rne (N D : Z) : Z :=
  let q := N / D in
  match 2 * (N mod D) ?= D with
  | Lt => q
  | Eq => if Z.even q then q else q + 1
  | Gt => q + 1
  end.

(** Where the remainder [r] of a division by [D] lies: nowhere (exact),
    below, at or above the half. *)
Definition loc_of (r D : Z) : location :=
  if r =? 0 then loc_Exact else loc_Inexact (2 * r ?= D).

(** The truncation of [N/D], with its round and sticky bits. *)
Definition frac_record (N D : Z) : shr_record :=
  shr_record_of_loc (N / D) (loc_of (N mod D) D).

(** The float of mantissa [m] in [[2^52, 2^53]] and exponent [e]. *)
Definition canon (m e : Z) : spec_float :=
  if m =? 2 ^ 53 then S754_finite false (Z.to_pos (2 ^ 52)) (e + 1)
  else S754_finite false (Z.to_pos m) e.

(** The binary64 number nearest to [(N/D) * 2^e], for [N/D >= 2^52]. *)
Definition round_frac (N D e : Z) : spec_float :=
  let n := Zdigits2 (N / D) - 53 in
  canon (rne N (D * 2 ^ n)) (e + n).

(** The value of a non-negative float, in units of [2^-1074]. *)
Definition sval (x : spec_float) : Z :=
  match x with
  | S754_finite false m e => Z.pos m * 2 ^ (e + 1074)
  | _ => 0
  end.

(** [+0] and the positive normal numbers. *)
Definition nonneg_normal (x : spec_float) : Prop :=
  match x with
  | S754_zero false => True
  | S754_finite false m e =>
      2 ^ 52 <= Z.pos m < 2 ^ 53 /\ -1074 <= e <= 971
  | _ => False
  end.

(** [float64(1000000000)], the constant [1e9]. *)
Definition f64_1e9 : spec_float := S754_finite false 8388608000000000 (-23).

(** The exponent of a finite float lies in a range. *)
Definition exp_in (lo hi : Z) (x : spec_float) : Prop :=
  match x with
  | S754_finite _ _ e => lo <= e <= hi
  | _ => True
  end.

(* ===================================================================== *)
(** ** Further notions: events of a call, the file, the control thread,   *)
(** ** the startup and the exit of main                                   *)
(* ===================================================================== *)

(** The events a call adds to the world [w], given the world [w'] after it. *)
Definition new_events (w w' : World) : list event :=
  drop (length (output w)) (output w').

(** The two series [generateChart] builds from a log: the relative times
    are taken from the first Measurement. *)
Definition chartSeries (ms : list Measurement) : plotter.XYs * plotter.XYs :=
  match ms with
  | [] => ([], [])
  | m0 :: _ => dataPoints (timestamp m0) ms
  end.

Definition is_draw (ev : event) : bool :=
  match ev with
  | EvDraw _ _ _ _ _ => true
  | _ => false
  end.

(** The life of the output file, as the events tell it. *)
Inductive FileState : Type :=
| NoFile
| FileOpen (name : string)
| FileClosed (name : string).

(** One event seen by the file; [None] when the event breaks the protocol
    (a second create, a write or a close of a file that is not open). *)
Definition file_step (st : option FileState) (ev : event)
    : option FileState :=
  match st, ev with
  | None, _ => None
  | Some NoFile, EvCreate f => Some (FileOpen f)
  | Some _, EvCreate _ => None
  | Some (FileOpen f), EvWrite f' _ =>
      if String.eqb f f' then Some (FileOpen f) else None
  | Some _, EvWrite _ _ => None
  | Some (FileOpen f), EvClose f' =>
      if String.eqb f f' then Some (FileClosed f) else None
  | Some _, EvClose _ => None
  | Some s, _ => Some s
  end.

Definition file_protocol (evs : list event) : option FileState :=
  foldl file_step (Some NoFile) evs.

(** The position of the control thread in [main]. *)
Definition pc_index (pc : Machine.MainPC) : nat :=
  match pc with
  | Machine.MWaitSignal => 0
  | Machine.MSend => 1
  | Machine.MBlocked => 2
  | Machine.MAfterSend => 3
  | Machine.MDone _ => 4
  end.

(** The steps of the control thread, numbered in program order; the other
    steps are the goroutine's. *)
Definition main_kind (l : Machine.label) : option nat :=
  match l with
  | Machine.LSignal => Some 0%nat
  | Machine.LSendBlock => Some 1%nat
  | Machine.LHandshake => Some 2%nat
  | Machine.LRender _ => Some 3%nat
  | _ => None
  end.

(** The clock readings taken at the start of the ticks never go back. *)
Fixpoint clock_nondecreasing (tks : list Tick) : Prop :=
  match tks with
  | t1 :: ((t2 :: _) as tl) =>
      tick_start t1 <= tick_start t2 /\ clock_nondecreasing tl
  | _ => True
  end.

Definition is_fatal (ev : event) : bool :=
  match ev with
  | EvFatal _ => true
  | _ => false
  end.

(** How [main] ends once [generateChart] has returned: on success it
    returns, which runs the deferred [conn.Close()], with exit status 0;
    [log.Fatal] exits with status 1 and runs no deferred call.  The result
    is whether the connection was closed, and the exit status. *)
Definition main_exit (s : Machine.State) : option (bool * Z) :=
  match Machine.mainPC s with
  | Machine.MDone None => Some (true, 0)
  | Machine.MDone (Some _) => Some (false, 1)
  | _ => None
  end.

(** What the output looks like once [generateChart] has returned [r]. *)
Definition final_output (r : option string) (out : list event) : Prop :=
  match r with
  | Some e =>
      exists pre, out = pre ++ [EvFatal e] /\
                  Forall (fun ev => is_fatal ev = false) pre
  | None =>
      Forall (fun ev => is_fatal ev = false) out /\
      exists f, last out = Some (EvClose f)
  end.

(** The invariant of [main] about fatal errors and the end of the
    goroutine. *)
Definition exit_invariant (s : Machine.State) : Prop :=
  (Machine.handshake_done s = true ->
   Machine.samplerPC s = Machine.SReturned)
  /\ match Machine.mainPC s with
     | Machine.MDone r => final_output r (output (Machine.world s))
     | _ => Forall (fun ev => is_fatal ev = false) (output (Machine.world s))
     end.

(** The non-negative float [x] is exactly the integer [k]. *)
Definition is_integer (x : float64) (k : Z) : Prop :=
  nonneg_normal x /\ sval x = k * 2 ^ 1074.

(** The outcome of [clickhouse.ParseDSN]; the options are opaque to
    [main]. *)
Inductive ParseResult : Type :=
| ParseOk (opts : string)
| ParseErr (err : string).

(** What the outside supplies to the startup of [main]. *)
Record StartEnv : Type := mkStartEnv {
  ParseDSN : string -> ParseResult;
  Open : string -> option string
}.

(** What the startup does, in order. *)
Inductive StartEvent : Type :=
| EvParseDSN (dsn : string)       (* clickhouse.ParseDSN(os.Args[1]) *)
| EvOpen (opts : string)          (* clickhouse.Open(opts) *)
| EvNotify                        (* signal.Notify(sigChan, ...) *)
| EvStartFatal (msg : string).    (* log.Fatal *)

(** [main], up to the [go] statement: the calls made, and the state in which
    sampling starts, if it does. *)
Definition startup (args : list string) (env : StartEnv)
    : list StartEvent * option Machine.State :=
  match args with
  | _ :: dsn :: _ =>
      match ParseDSN env dsn with
      | ParseErr err => ([EvParseDSN dsn; EvStartFatal err], None)
      | ParseOk opts =>
          match Open env opts with
          | Some err => ([EvParseDSN dsn; EvOpen opts; EvStartFatal err], None)
          | None => ([EvParseDSN dsn; EvOpen opts; EvNotify], Some Machine.init)
          end
      end
  | _ => ([EvStartFatal "Please provide ClickHouse DSN as argument"], None)
  end.

(** The counts printed by [fmt.Println("Collected metrics", count)]. *)
Definition printed_counts (out : list event) : list Z :=
  omap (fun ev => match ev with
                  | EvPrintln _ count => Some count
                  | _ => None
                  end) out.

(** The counts returned by the ticks whose query succeeded. *)
Definition ok_counts (tks : list Tick) : list Z :=
  omap (fun tk => match tick_result tk with
                  | QueryOk count => Some count
                  | QueryErr _ => None
                  end) tks.

(** The clock did not go back during the tick. *)
Definition tick_clock_ok (tk : Tick) : Prop := tick_start tk <= tick_end tk.

(** A complete schedule: one tick, overlapped with the stop request, then
    the handshake and the rendering. *)
Definition sample_schedule : list Machine.label :=
  [Machine.LCollect sample_tick; Machine.LSignal; Machine.LAppend;
   Machine.LSendBlock; Machine.LWake; Machine.LHandshake;
   Machine.LRender quiet_env].

(* ===================================================================== *)
(** ** binary64: the operations round monotonically                       *)
(* ===================================================================== *)

(** One right shift of a non-negative mantissa: halve it, keep the bit that
    falls off as the round bit, and fold the old round bit into the sticky bit. *)
Lemma shr_1_nonneg (m : Z) (r s : bool) :
  0 <= m ->
  shr_1 (Build_shr_record m r s) = Build_shr_record (m / 2) (Z.odd m) (r || s).
Proof.
  intros Hm. destruct m as [|p|p]; [reflexivity| |lia].
  destruct p as [p|p|]; cbn [shr_1 Z.odd].
  - replace (Z.pos p~1 / 2) with (Z.pos p); [reflexivity|].
    apply (Z.div_unique _ _ _ 1); lia.
  - replace (Z.pos p~0 / 2) with (Z.pos p); [reflexivity|].
    apply (Z.div_unique _ _ _ 0); lia.
  - reflexivity.
Qed.

(** Shifting the truncation of [N/D] once gives the truncation of [N/(2D)]. *)
Lemma frac_record_shr_1 (N D : Z) :
  0 <= N -> 0 < D -> shr_1 (frac_record N D) = frac_record N (2 * D).
Proof.
  intros HN HD. unfold frac_record.
  assert (Hq : 0 <= N / D) by (apply Z.div_pos; lia).
  pose proof (Z.mod_pos_bound N D HD) as Hr.
  assert (Hdiv : N / (2 * D) = N / D / 2).
  { rewrite (Z.mul_comm 2 D), Z.div_div by lia. reflexivity. }
  assert (Hmod : N mod (2 * D) = N mod D + D * (N / D mod 2)).
  { rewrite (Z.mul_comm 2 D). apply Z.rem_mul_r; lia. }
  rewrite Hdiv, Hmod. pose proof (Zmod_odd (N / D)) as Hodd.
  set (q := N / D) in *. set (r := N mod D) in *.
  unfold loc_of.
  destruct (Z.odd q) eqn:Eo; rewrite Hodd;
    destruct (Z.eqb_spec r 0) as [E0|E0];
    destruct (Z.eqb_spec (r + D * 1) 0) as [E1|E1];
    destruct (Z.eqb_spec (r + D * 0) 0) as [E2|E2]; try lia;
    destruct (Z.compare_spec (2 * r) D);
    destruct (Z.compare_spec (2 * (r + D * 1)) (2 * D));
    destruct (Z.compare_spec (2 * (r + D * 0)) (2 * D)); try lia;
    cbn [shr_record_of_loc]; rewrite shr_1_nonneg by exact Hq;
    rewrite Eo; reflexivity.
Qed.

Lemma pow2_xI (p : positive) : 2 ^ Z.pos p~1 = 2 * (2 ^ Z.pos p * 2 ^ Z.pos p).
Proof.
  replace (Z.pos p~1) with (1 + Z.pos p + Z.pos p) by lia.
  rewrite !Z.pow_add_r by lia. rewrite Z.pow_1_r. ring.
Qed.

Lemma pow2_xO (p : positive) : 2 ^ Z.pos p~0 = 2 ^ Z.pos p * 2 ^ Z.pos p.
Proof.
  replace (Z.pos p~0) with (Z.pos p + Z.pos p) by lia.
  rewrite !Z.pow_add_r by lia. reflexivity.
Qed.

(** ... and [p] shifts give the truncation of [N/(D * 2^p)]. *)
Lemma frac_record_iter (p : positive) :
  forall N D : Z,
    0 <= N -> 0 < D ->
    SpecFloat.iter_pos shr_1 p (frac_record N D) = frac_record N (D * 2 ^ Z.pos p).
Proof.
  induction p as [p IH|p IH|]; intros N D HN HD; cbn [SpecFloat.iter_pos].
  - assert (0 < 2 ^ Z.pos p) by (apply Z.pow_pos_nonneg; lia).
    rewrite frac_record_shr_1 by assumption.
    rewrite IH by lia. rewrite IH by nia.
    f_equal. rewrite pow2_xI. ring.
  - assert (0 < 2 ^ Z.pos p) by (apply Z.pow_pos_nonneg; lia).
    rewrite IH by lia. rewrite IH by nia.
    f_equal. rewrite pow2_xO. ring.
  - rewrite frac_record_shr_1 by assumption. f_equal.
    rewrite Z.pow_1_r. ring.
Qed.

Lemma frac_record_shr (N D e n : Z) :
  0 <= N -> 0 < D -> 0 <= n ->
  shr (frac_record N D) e n = (frac_record N (D * 2 ^ n), e + n).
Proof.
  intros HN HD Hn. unfold shr. destruct n as [|p|p]; [| |lia].
  - rewrite Z.mul_1_r, Z.add_0_r. reflexivity.
  - rewrite frac_record_iter by assumption. reflexivity.
Qed.

(** Rounding a truncation by its round and sticky bits is [rne]. *)
Lemma round_frac_record (N D : Z) :
  0 < D ->
  round_nearest_even (shr_m (frac_record N D))
    (loc_of_shr_record (frac_record N D)) = rne N D.
Proof.
  intros HD. unfold frac_record, loc_of, rne.
  destruct (Z.eqb_spec (N mod D) 0) as [E|E].
  - rewrite E. cbn [shr_record_of_loc shr_m loc_of_shr_record round_nearest_even].
    destruct (Z.compare_spec (2 * 0) D); lia.
  - destruct (2 * (N mod D) ?= D); reflexivity.
Qed.

(** Bounds and monotonicity of [rne]. *)
(** [rne] stays between integer bounds of the fraction. *)
Lemma rne_bounds (N D lo hi : Z) :
  0 < D -> lo * D <= N -> N <= hi * D -> lo <= rne N D <= hi.
Proof.
  intros HD Hlo Hhi. unfold rne.
  pose proof (Z.mod_pos_bound N D HD) as Hr.
  pose proof (Z.div_mod N D ltac:(lia)) as Hdm.
  set (q := N / D) in *. set (r := N mod D) in *.
  assert (lo <= q) by nia.
  assert (q <= hi) by nia.
  assert (q = hi -> r = 0) by nia.
  destruct (Z.compare_spec (2 * r) D); [destruct (Z.even q)| |]; nia.
Qed.

(** [rne] is monotone in the fraction [N/D]. *)
Lemma rne_mono (N D N' D' : Z) :
  0 < D -> 0 < D' -> N * D' <= N' * D -> rne N D <= rne N' D'.
Proof.
  intros HD HD' Hle. unfold rne.
  pose proof (Z.mod_pos_bound N D HD) as Hr.
  pose proof (Z.mod_pos_bound N' D' HD') as Hr'.
  pose proof (Z.div_mod N D ltac:(lia)) as Hdm.
  pose proof (Z.div_mod N' D' ltac:(lia)) as Hdm'.
  set (q := N / D) in *. set (r := N mod D) in *.
  set (q' := N' / D') in *. set (r' := N' mod D') in *.
  assert (Hrd : 0 <= r * D') by nia.
  assert (Hrd' : r' * D < D' * D) by nia.
  assert (Hq : q <= q').
  { destruct (Z.le_gt_cases q q') as [|Hgt]; [assumption|exfalso].
    assert (D * D' * (q' + 1) <= D * D' * q) by (apply Z.mul_le_mono_nonneg_l; nia).
    nia. }
  assert (Hq2 : q = q' -> r * D' <= r' * D) by (intros ->; nia).
  destruct (Z.compare_spec (2 * r) D) as [E|E|E];
    destruct (Z.compare_spec (2 * r') D') as [E'|E'|E'];
    try destruct (Z.even q) eqn:Ev; try destruct (Z.even q') eqn:Ev';
    try lia;
    (destruct (Z.eq_dec q q') as [Heq|Hne]; [|lia]);
    specialize (Hq2 Heq); try (rewrite Heq in *; congruence); nia.
Qed.

(** The number of binary digits of a positive integer. *)
Lemma Zdigits2_bounds (p : positive) :
  2 ^ (Zdigits2 (Z.pos p) - 1) <= Z.pos p < 2 ^ Zdigits2 (Z.pos p).
Proof.
  cbn [Zdigits2].
  induction p as [p IH|p IH|]; cbn [digits2_pos].
  - rewrite Pos2Z.inj_succ.
    replace (Z.succ (Z.pos (digits2_pos p)) - 1)
      with (Z.succ (Z.pos (digits2_pos p) - 1)) by lia.
    rewrite !Z.pow_succ_r by lia. lia.
  - rewrite Pos2Z.inj_succ.
    replace (Z.succ (Z.pos (digits2_pos p)) - 1)
      with (Z.succ (Z.pos (digits2_pos p) - 1)) by lia.
    rewrite !Z.pow_succ_r by lia. lia.
  - cbn. lia.
Qed.

Lemma Zdigits2_unique (q k : Z) :
  2 ^ (k - 1) <= q < 2 ^ k -> 1 <= k -> Zdigits2 q = k.
Proof.
  intros [Hlo Hhi] Hk.
  assert (Hq : 0 < q).
  { assert (0 < 2 ^ (k - 1)) by (apply Z.pow_pos_nonneg; lia). lia. }
  destruct q as [|p|p]; try lia.
  pose proof (Zdigits2_bounds p) as [Hlo' Hhi'].
  assert (Hd : 1 <= Zdigits2 (Z.pos p)) by (cbn; lia).
  set (d := Zdigits2 (Z.pos p)) in *.
  assert (k - 1 < d).
  { apply (Z.pow_lt_mono_r_iff 2); lia. }
  assert (d - 1 < k).
  { apply (Z.pow_lt_mono_r_iff 2); lia. }
  lia.
Qed.

(** The binade of a fraction whose integer part has at least 53 digits. *)
Lemma frac_digits (N D : Z) :
  0 < D -> 2 ^ 52 <= N / D ->
  53 <= Zdigits2 (N / D) /\
  2 ^ 52 * (D * 2 ^ (Zdigits2 (N / D) - 53)) <= N /\
  N < 2 ^ 53 * (D * 2 ^ (Zdigits2 (N / D) - 53)).
Proof.
  intros HD Hq.
  pose proof (Z.mod_pos_bound N D HD) as Hr.
  pose proof (Z.div_mod N D ltac:(lia)) as Hdm.
  destruct (N / D) as [|p|p] eqn:Eq; try (cbn in Hq; lia).
  pose proof (Zdigits2_bounds p) as [Hlo Hhi].
  set (d := Zdigits2 (Z.pos p)) in *.
  assert (Hd : 52 < d).
  { apply (Z.pow_lt_mono_r_iff 2); try lia. cbn; lia. }
  split; [lia|].
  assert (H52 : 2 ^ (d - 1) = 2 ^ 52 * 2 ^ (d - 53)).
  { rewrite <- Z.pow_add_r by lia. f_equal. lia. }
  assert (H53 : 2 ^ d = 2 ^ 53 * 2 ^ (d - 53)).
  { rewrite <- Z.pow_add_r by lia. f_equal. lia. }
  assert (0 < 2 ^ (d - 53)) by (apply Z.pow_pos_nonneg; lia).
  rewrite H52 in Hlo. rewrite H53 in Hhi.
  split; nia.
Qed.

(** [binary_round_aux], the rounding step shared by the operations, on the
    truncated fraction [N/D] at exponent [e]: it returns [round_frac N D e]
    when neither underflow nor overflow is in reach. *)
Lemma binary_round_aux_frac (N D e : Z) :
  0 < D -> 2 ^ 52 <= N / D -> -1074 <= e ->
  e + (Zdigits2 (N / D) - 53) + 1 <= 971 ->
  binary_round_aux 53 1024 false (N / D) e (loc_of (N mod D) D)
    = round_frac N D e.
Proof.
  intros HD Hq He Hov.
  destruct (frac_digits N D HD Hq) as (Hd & Hlo & Hhi).
  assert (HN : 0 <= N).
  { assert (0 < 2 ^ (Zdigits2 (N / D) - 53)) by (apply Z.pow_pos_nonneg; lia). nia. }
  unfold binary_round_aux, shr_fexp, round_frac.
  fold (frac_record N D).
  set (n := Zdigits2 (N / D) - 53) in *.
  assert (Hn : fexp 53 1024 (Zdigits2 (N / D) + e) - e = n).
  { unfold fexp, emin. lia. }
  rewrite Hn, frac_record_shr by lia.
  assert (HD' : 0 < D * 2 ^ n).
  { assert (0 < 2 ^ n) by (apply Z.pow_pos_nonneg; lia). nia. }
  rewrite round_frac_record by exact HD'.
  pose proof (rne_bounds N (D * 2 ^ n) (2 ^ 52) (2 ^ 53) HD' Hlo
                (Z.lt_le_incl _ _ Hhi)) as Hm.
  set (m := rne N (D * 2 ^ n)) in *.
  assert (Hrec : shr_record_of_loc m loc_Exact = frac_record m 1).
  { unfold frac_record. rewrite Z.div_1_r, Z.mod_1_r. reflexivity. }
  rewrite Hrec. unfold canon.
  destruct (Z.eqb_spec m (2 ^ 53)) as [E|E].
  - rewrite E.
    replace (fexp 53 1024 (Zdigits2 (2 ^ 53) + (e + n)) - (e + n)) with 1
      by (change (Zdigits2 (2 ^ 53)) with 54; unfold fexp, emin; lia).
    rewrite frac_record_shr by lia.
    unfold frac_record.
    replace (2 ^ 53 / (1 * 2 ^ 1)) with (2 ^ 52) by reflexivity.
    cbn [shr_record_of_loc loc_of].
    replace (2 ^ 53 mod (1 * 2 ^ 1) =? 0) with true by reflexivity.
    cbn [shr_m shr_record_of_loc].
    replace (2 ^ 52) with (Z.pos (Z.to_pos (2 ^ 52))) at 1 by reflexivity.
    cbv iota beta.
    destruct (Z.leb_spec (e + n + 1) (1024 - 53)); [reflexivity|lia].
  - assert (Hdm : Zdigits2 m = 53).
    { apply Zdigits2_unique; lia. }
    replace (fexp 53 1024 (Zdigits2 m + (e + n)) - (e + n)) with 0
      by (rewrite Hdm; unfold fexp, emin; lia).
    rewrite frac_record_shr by lia.
    unfold frac_record. rewrite Z.mul_1_l. change (2 ^ 0) with 1.
    rewrite Z.div_1_r, Z.mod_1_r. cbn [loc_of Z.eqb shr_record_of_loc shr_m].
    rewrite Z.add_0_r.
    destruct m as [|p|p]; try lia.
    cbn [Z.to_pos].
    destruct (Z.leb_spec (e + n) (1024 - 53)); [reflexivity|lia].
Qed.

Lemma sval_nonneg (x : spec_float) : 0 <= sval x.
Proof.
  destruct x as [s|s| |s m e]; cbn; try lia.
  destruct s; [lia|].
  pose proof (Z.pow_nonneg 2 (e + 1074)). nia.
Qed.

Lemma canon_spec (m e : Z) :
  2 ^ 52 <= m <= 2 ^ 53 -> -1074 <= e -> e + 1 <= 971 ->
  nonneg_normal (canon m e) /\ sval (canon m e) = m * 2 ^ (e + 1074).
Proof.
  intros Hm He He'. unfold canon.
  destruct (Z.eqb_spec m (2 ^ 53)) as [E|E].
  - subst m. cbn [nonneg_normal sval]. split.
    + change (Z.pos (Z.to_pos (2 ^ 52))) with (2 ^ 52). lia.
    + change (Z.pos (Z.to_pos (2 ^ 52))) with (2 ^ 52).
      replace (e + 1 + 1074) with (1 + (e + 1074)) by lia.
      rewrite Z.pow_add_r by lia.
      change (2 ^ 53) with (2 ^ 52 * 2 ^ 1). ring.
  - destruct m as [|p|p]; try lia.
    cbn [nonneg_normal sval Z.to_pos]. split; [lia|reflexivity].
Qed.

(** A rounded fraction is a positive normal number, of the expected value. *)
Lemma round_frac_spec (N D e : Z) :
  0 < D -> 2 ^ 52 <= N / D -> -1074 <= e ->
  e + (Zdigits2 (N / D) - 53) + 1 <= 971 ->
  nonneg_normal (round_frac N D e) /\
  sval (round_frac N D e)
    = rne N (D * 2 ^ (Zdigits2 (N / D) - 53))
      * 2 ^ (e + (Zdigits2 (N / D) - 53) + 1074).
Proof.
  intros HD Hq He Hov.
  destruct (frac_digits N D HD Hq) as (Hd & Hlo & Hhi).
  unfold round_frac. apply canon_spec; try lia.
  apply rne_bounds; lia.
Qed.

(** Rounding is monotone: if [(N/D) * 2^e <= (N'/D') * 2^e'] then the
    rounded values are in the same order. *)
Lemma round_frac_mono (N D e N' D' e' : Z) :
  0 < D -> 2 ^ 52 <= N / D -> -1074 <= e ->
  e + (Zdigits2 (N / D) - 53) + 1 <= 971 ->
  0 < D' -> 2 ^ 52 <= N' / D' -> -1074 <= e' ->
  e' + (Zdigits2 (N' / D') - 53) + 1 <= 971 ->
  N * 2 ^ (e + 1074) * D' <= N' * 2 ^ (e' + 1074) * D ->
  sval (round_frac N D e) <= sval (round_frac N' D' e').
Proof.
  intros HD Hq He Hov HD' Hq' He' Hov' Hle.
  destruct (round_frac_spec N D e HD Hq He Hov) as [_ ->].
  destruct (round_frac_spec N' D' e' HD' Hq' He' Hov') as [_ ->].
  destruct (frac_digits N D HD Hq) as (Hd & Hlo & Hhi).
  destruct (frac_digits N' D' HD' Hq') as (Hd' & Hlo' & Hhi').
  set (n := Zdigits2 (N / D) - 53) in *.
  set (n' := Zdigits2 (N' / D') - 53) in *.
  assert (HP : 0 < 2 ^ n) by (apply Z.pow_pos_nonneg; lia).
  assert (HP' : 0 < 2 ^ n') by (apply Z.pow_pos_nonneg; lia).
  assert (Ha : 0 < 2 ^ (e + 1074)) by (apply Z.pow_pos_nonneg; lia).
  assert (Hb : 0 < 2 ^ (e' + 1074)) by (apply Z.pow_pos_nonneg; lia).
  assert (HE : 2 ^ (e + n + 1074) = 2 ^ (e + 1074) * 2 ^ n).
  { rewrite <- Z.pow_add_r by lia. f_equal. lia. }
  assert (HE' : 2 ^ (e' + n' + 1074) = 2 ^ (e' + 1074) * 2 ^ n').
  { rewrite <- Z.pow_add_r by lia. f_equal. lia. }
  assert (HDn : 0 < D * 2 ^ n) by nia.
  assert (HDn' : 0 < D' * 2 ^ n') by nia.
  pose proof (rne_bounds N (D * 2 ^ n) (2 ^ 52) (2 ^ 53) HDn Hlo
                (Z.lt_le_incl _ _ Hhi)) as Hm.
  pose proof (rne_bounds N' (D' * 2 ^ n') (2 ^ 52) (2 ^ 53) HDn' Hlo'
                (Z.lt_le_incl _ _ Hhi')) as Hm'.
  set (m := rne N (D * 2 ^ n)) in *.
  set (m' := rne N' (D' * 2 ^ n')) in *.
  set (E := e + n + 1074) in *. set (E' := e' + n' + 1074) in *.
  assert (HEpos : 0 < 2 ^ E) by (apply Z.pow_pos_nonneg; lia).
  assert (HEpos' : 0 < 2 ^ E') by (apply Z.pow_pos_nonneg; lia).
  destruct (Z.lt_trichotomy E E') as [Hlt|[Heq|Hgt]].
  - (* a lower binade *)
    assert (H2 : 2 * 2 ^ E <= 2 ^ E').
    { replace (2 * 2 ^ E) with (2 ^ (E + 1))
        by (rewrite Z.pow_add_r by lia; rewrite Z.pow_1_r; ring).
      apply Z.pow_le_mono_r; lia. }
    change (2 ^ 53) with (2 * 2 ^ 52) in Hm.
    nia.
  - (* the same binade *)
    rewrite <- Heq.
    apply Z.mul_le_mono_nonneg_r; [lia|].
    apply rne_mono; try assumption.
    apply (Z.mul_le_mono_pos_r _ _ (2 ^ E)); [exact HEpos|].
    replace (N * (D' * 2 ^ n') * 2 ^ E)
      with (N * 2 ^ (e + 1074) * D' * (2 ^ n * 2 ^ n')) by (rewrite HE; ring).
    replace (N' * (D * 2 ^ n) * 2 ^ E)
      with (N' * 2 ^ (e' + 1074) * D * (2 ^ n * 2 ^ n'))
      by (rewrite Heq, HE'; ring).
    apply Z.mul_le_mono_nonneg_r; [nia|exact Hle].
  - (* a higher binade: impossible *)
    exfalso.
    assert (H2 : 2 * 2 ^ E' <= 2 ^ E).
    { replace (2 * 2 ^ E') with (2 ^ (E' + 1))
        by (rewrite Z.pow_add_r by lia; rewrite Z.pow_1_r; ring).
      apply Z.pow_le_mono_r; lia. }
    assert (H1 : 2 ^ 52 * 2 ^ E * (D * D') <= N * 2 ^ (e + 1074) * D').
    { rewrite HE.
      replace (2 ^ 52 * (2 ^ (e + 1074) * 2 ^ n) * (D * D'))
        with (2 ^ 52 * (D * 2 ^ n) * (2 ^ (e + 1074) * D')) by ring.
      replace (N * 2 ^ (e + 1074) * D') with (N * (2 ^ (e + 1074) * D')) by ring.
      apply Z.mul_le_mono_nonneg_r; [nia|exact Hlo]. }
    assert (H3 : N' * 2 ^ (e' + 1074) * D < 2 ^ 53 * 2 ^ E' * (D * D')).
    { rewrite HE'.
      replace (2 ^ 53 * (2 ^ (e' + 1074) * 2 ^ n') * (D * D'))
        with (2 ^ 53 * (D' * 2 ^ n') * (2 ^ (e' + 1074) * D)) by ring.
      replace (N' * 2 ^ (e' + 1074) * D) with (N' * (2 ^ (e' + 1074) * D)) by ring.
      apply Z.mul_lt_mono_pos_r; [nia|exact Hhi']. }
    change (2 ^ 53) with (2 * 2 ^ 52) in H3.
    assert (0 < D * D') by nia.
    assert (H4 : 2 ^ 52 * 2 ^ E * (D * D') < 2 * 2 ^ 52 * 2 ^ E' * (D * D')) by lia.
    assert (H5 : 2 ^ 52 * 2 ^ E < 2 * 2 ^ 52 * 2 ^ E').
    { apply (Z.mul_lt_mono_pos_r (D * D')); assumption. }
    change (2 ^ 52) with 4503599627370496 in H5. lia.
Qed.

(** On [+0] and the positive normal numbers, the order of the values is the
    order [<=] of the floats. *)
Lemma nonneg_normal_leb (x y : spec_float) :
  nonneg_normal x -> nonneg_normal y -> sval x <= sval y -> SFleb x y = true.
Proof.
  destruct x as [[|]| | |[|] m e]; destruct y as [[|]| | |[|] m' e'];
    cbn [nonneg_normal]; try tauto; intros Hx Hy; cbn [sval]; intros Hle;
    try reflexivity.
  - exfalso. assert (0 < 2 ^ (e + 1074)) by (apply Z.pow_pos_nonneg; lia). nia.
  - unfold SFleb, SFcompare.
    assert (Ha : 0 < 2 ^ (e + 1074)) by (apply Z.pow_pos_nonneg; lia).
    assert (Hb : 0 < 2 ^ (e' + 1074)) by (apply Z.pow_pos_nonneg; lia).
    destruct (Z.compare_spec e e') as [Heq|Hlt|Hgt].
    + subst e'. rewrite Pos.compare_cont_spec. unfold Pos.switch_Eq.
      destruct (Pos.compare_spec m m') as [E|E|E]; try reflexivity.
      exfalso. apply Pos2Z.pos_lt_pos in E. nia.
    + reflexivity.
    + exfalso.
      assert (H2 : 2 * 2 ^ (e' + 1074) <= 2 ^ (e + 1074)).
      { replace (2 * 2 ^ (e' + 1074)) with (2 ^ (e' + 1074 + 1))
          by (rewrite Z.pow_add_r by lia; rewrite Z.pow_1_r; ring).
        apply Z.pow_le_mono_r; lia. }
      change (2 ^ 53) with (2 * 2 ^ 52) in Hy. nia.
Qed.

Lemma iter_xO_pow (m d : positive) :
  Z.pos (Pos.iter xO m d) = Z.pos m * 2 ^ Z.pos d.
Proof.
  induction d as [|d IH] using Pos.peano_ind.
  - cbn [Pos.iter]. rewrite Z.pow_1_r. lia.
  - rewrite Pos.iter_succ, Pos2Z.inj_xO, IH, Pos2Z.inj_succ.
    rewrite Z.pow_succ_r by lia. ring.
Qed.

(** Aligning a mantissa to a smaller exponent multiplies it by a power of 2. *)
Lemma shl_align_spec (mx : positive) (ex ex' : Z) :
  ex' <= ex ->
  Z.pos (fst (shl_align mx ex ex')) = Z.pos mx * 2 ^ (ex - ex') /\
  snd (shl_align mx ex ex') = ex'.
Proof.
  intros Hle. unfold shl_align.
  destruct (ex' - ex) as [|d|d] eqn:Ed; try lia; cbn [fst snd].
  - replace (ex - ex') with 0 by lia. split; lia.
  - rewrite iter_xO_pow. replace (ex - ex') with (Z.pos d) by lia. auto.
Qed.

Lemma shl_align_id (mx : positive) (ex ex' : Z) :
  ex <= ex' -> shl_align mx ex ex' = (mx, ex).
Proof.
  intros Hle. unfold shl_align.
  destruct (ex' - ex) as [|d|d] eqn:Ed; try lia; reflexivity.
Qed.

Lemma binary_round_aux_exact (M e : Z) :
  2 ^ 52 <= M -> -1074 <= e -> e + (Zdigits2 M - 53) + 1 <= 971 ->
  binary_round_aux 53 1024 false M e loc_Exact = round_frac M 1 e.
Proof.
  intros HM He Hov.
  pose proof (binary_round_aux_frac M 1 e) as H.
  rewrite Z.div_1_r, Z.mod_1_r in H. apply H; lia.
Qed.

Lemma rne_exact (M : Z) : rne M 1 = M.
Proof.
  unfold rne. rewrite Z.div_1_r, Z.mod_1_r. reflexivity.
Qed.

Lemma round_frac_exact (M e : Z) :
  2 ^ 52 <= M < 2 ^ 53 -> round_frac M 1 e = S754_finite false (Z.to_pos M) e.
Proof.
  intros HM. unfold round_frac. rewrite Z.div_1_r.
  rewrite (Zdigits2_unique M 53) by (change (2 ^ (53 - 1)) with (2 ^ 52); lia).
  change (1 * 2 ^ (53 - 53)) with 1. rewrite rne_exact, Z.add_0_r.
  unfold canon. destruct (Z.eqb_spec M (2 ^ 53)); [lia|reflexivity].
Qed.

(** [float64(z)] for a positive integer below [2^53]: exact. *)
Lemma of_int_small (z : Z) :
  0 < z < 2 ^ 53 ->
  binary_normalize 53 1024 z 0 false =
    S754_finite false (Z.to_pos (z * 2 ^ (53 - Zdigits2 z))) (Zdigits2 z - 53).
Proof.
  intros Hz. destruct z as [|p|p]; try lia.
  pose proof (Zdigits2_bounds p) as Hb.
  set (d := Zdigits2 (Z.pos p)) in *.
  assert (Hd1 : 1 <= d) by (unfold d; cbn; lia).
  assert (Hd : d <= 53).
  { assert (d - 1 < 53); [|lia]. apply (Z.pow_lt_mono_r_iff 2); lia. }
  cbn [binary_normalize]. unfold binary_round.
  change (Z.pos (digits2_pos p)) with d.
  replace (fexp 53 1024 (d + 0)) with (d - 53) by (unfold fexp, emin; lia).
  destruct (shl_align_spec p 0 (d - 53) ltac:(lia)) as [Hm He].
  destruct (shl_align p 0 (d - 53)) as [mz ez]. cbn [fst snd] in Hm, He.
  subst ez. replace (0 - (d - 53)) with (53 - d) in Hm by lia.
  assert (HP : 2 ^ 52 <= Z.pos mz < 2 ^ 53).
  { rewrite Hm.
    assert (E1 : 2 ^ 52 = 2 ^ (d - 1) * 2 ^ (53 - d)).
    { rewrite <- Z.pow_add_r by lia. f_equal. lia. }
    assert (E2 : 2 ^ 53 = 2 ^ d * 2 ^ (53 - d)).
    { rewrite <- Z.pow_add_r by lia. f_equal. lia. }
    assert (0 < 2 ^ (53 - d)) by (apply Z.pow_pos_nonneg; lia).
    rewrite E1, E2. nia. }
  assert (Hdz : Zdigits2 (Z.pos mz) = 53).
  { apply Zdigits2_unique; [|lia]. change (2 ^ (53 - 1)) with (2 ^ 52). lia. }
  rewrite binary_round_aux_exact by (rewrite ?Hdz; lia).
  rewrite round_frac_exact by exact HP.
  rewrite <- Hm. reflexivity.
Qed.

Lemma div_1e9_conditions (mx : positive) :
  2 ^ 52 <= Z.pos mx < 2 ^ 53 ->
  2 ^ 52 <= Z.pos mx * 2 ^ 53 / 8388608000000000 /\
  Zdigits2 (Z.pos mx * 2 ^ 53 / 8388608000000000) <= 54.
Proof.
  intros Hm. split.
  - apply Z.div_le_lower_bound; lia.
  - assert (Hq : Z.pos mx * 2 ^ 53 / 8388608000000000 < 2 ^ 54).
    { apply Z.div_lt_upper_bound; lia. }
    assert (Hq0 : 2 ^ 52 <= Z.pos mx * 2 ^ 53 / 8388608000000000).
    { apply Z.div_le_lower_bound; lia. }
    destruct (Z.pos mx * 2 ^ 53 / 8388608000000000) as [|q|q]; try lia.
    pose proof (Zdigits2_bounds q) as [Hlo _].
    assert (Zdigits2 (Z.pos q) - 1 < 54); [|lia].
    apply (Z.pow_lt_mono_r_iff 2); lia.
Qed.

(** The division of a positive normal number by [1e9] is the rounding of the
    exact quotient. *)
Lemma div_1e9_spec (mx : positive) (ex : Z) :
  2 ^ 52 <= Z.pos mx < 2 ^ 53 -> -1044 <= ex <= 900 ->
  SFdiv 53 1024 (S754_finite false mx ex) f64_1e9
    = round_frac (Z.pos mx * 2 ^ 53) 8388608000000000 (ex - 30).
Proof.
  intros Hm He.
  destruct (div_1e9_conditions mx Hm) as [Hq Hd].
  rewrite <- binary_round_aux_frac by lia.
  unfold f64_1e9, SFdiv, SFdiv_core_binary. cbn [xorb].
  rewrite (Zdigits2_unique (Z.pos mx) 53)
    by (change (2 ^ (53 - 1)) with (2 ^ 52); lia).
  change (Zdigits2 (Z.pos 8388608000000000)) with 53.
  replace (Z.min (fexp 53 1024 (53 + ex - (53 + -23))) (ex - -23))
    with (ex - 30) by (unfold fexp, emin; lia).
  replace (ex - -23 - (ex - 30)) with 53 by lia.
  cbv iota. rewrite Z.shiftl_mul_pow2 by lia.
  unfold Z.div, Z.modulo.
  destruct (Z.div_eucl (Z.pos mx * 2 ^ 53) (Z.pos 8388608000000000)) as [q r].
  reflexivity.
Qed.

(** The sum of two positive normal numbers is the rounding of the exact sum. *)
Lemma add_normal_spec (mx my : positive) (ex ey : Z) :
  2 ^ 52 <= Z.pos mx < 2 ^ 53 -> 2 ^ 52 <= Z.pos my < 2 ^ 53 ->
  -1074 <= ex <= 900 -> -1074 <= ey <= 900 ->
  exists M : Z,
    SFadd 53 1024 (S754_finite false mx ex) (S754_finite false my ey)
      = round_frac M 1 (Z.min ex ey) /\
    2 ^ 52 <= M /\
    Z.min ex ey + (Zdigits2 M - 53) + 1 <= 971 /\
    M * 2 ^ (Z.min ex ey + 1074)
      = sval (S754_finite false mx ex) + sval (S754_finite false my ey).
Proof.
  intros Hmx Hmy Hex Hey.
  set (ez := Z.min ex ey).
  destruct (shl_align_spec mx ex ez ltac:(lia)) as [Ha _].
  destruct (shl_align_spec my ey ez ltac:(lia)) as [Hb _].
  unfold SFadd. fold ez. cbn [cond_Zopp].
  set (a := fst (shl_align mx ex ez)) in *.
  set (b := fst (shl_align my ey ez)) in *.
  exists (Z.pos (a + b)).
  assert (Hpx : 1 <= 2 ^ (ex - ez)) by (apply (Z.pow_le_mono_r 2 0); lia).
  assert (Hpy : 1 <= 2 ^ (ey - ez)) by (apply (Z.pow_le_mono_r 2 0); lia).
  assert (HM : 2 ^ 52 <= Z.pos (a + b)) by (rewrite Pos2Z.inj_add; nia).
  assert (Hub : Z.pos (a + b) < 2 ^ (54 + (Z.max ex ey - ez))).
  { rewrite Pos2Z.inj_add, Ha, Hb.
    assert (Hx : 2 ^ (ex - ez) <= 2 ^ (Z.max ex ey - ez))
      by (apply Z.pow_le_mono_r; lia).
    assert (Hy : 2 ^ (ey - ez) <= 2 ^ (Z.max ex ey - ez))
      by (apply Z.pow_le_mono_r; lia).
    replace (54 + (Z.max ex ey - ez)) with (1 + 53 + (Z.max ex ey - ez)) by lia.
    rewrite !Z.pow_add_r by lia. rewrite Z.pow_1_r. nia. }
  assert (Hd : 53 <= Zdigits2 (Z.pos (a + b)) <= 54 + (Z.max ex ey - ez)).
  { pose proof (Zdigits2_bounds (a + b)) as [Hlo Hhi]. split.
    - assert (52 < Zdigits2 (Z.pos (a + b))); [|lia].
      apply (Z.pow_lt_mono_r_iff 2); [lia|cbn;lia|lia].
    - assert (Zdigits2 (Z.pos (a + b)) - 1 < 54 + (Z.max ex ey - ez)); [|lia].
      apply (Z.pow_lt_mono_r_iff 2); lia. }
  split; [|split; [exact HM|split; [lia|]]].
  - change (Z.pos a + Z.pos b) with (Z.pos (a + b)).
    cbn [binary_normalize]. unfold binary_round.
    rewrite shl_align_id by (unfold fexp, emin; cbn [Zdigits2] in Hd; lia).
    apply binary_round_aux_exact; lia.
  - cbn [sval]. rewrite Pos2Z.inj_add, Ha, Hb.
    replace (ex + 1074) with ((ex - ez) + (ez + 1074)) by lia.
    replace (ey + 1074) with ((ey - ez) + (ez + 1074)) by lia.
    rewrite (Z.pow_add_r 2 (ex - ez) (ez + 1074)) by lia.
    rewrite (Z.pow_add_r 2 (ey - ez) (ez + 1074)) by lia.
    ring.
Qed.

Lemma exp_in_weaken (lo hi lo' hi' : Z) (x : spec_float) :
  lo' <= lo -> hi <= hi' -> exp_in lo hi x -> exp_in lo' hi' x.
Proof. destruct x; cbn; lia. Qed.

Lemma canon_exp (m e : Z) : exp_in e (e + 1) (canon m e).
Proof. unfold canon. destruct (m =? 2 ^ 53); cbn; lia. Qed.

(** [float64(z)] for [0 <= z < 2^53] is exact. *)
Lemma of_int_spec (z : Z) :
  0 <= z < 2 ^ 53 ->
  nonneg_normal (binary_normalize 53 1024 z 0 false) /\
  exp_in (-52) 0 (binary_normalize 53 1024 z 0 false) /\
  sval (binary_normalize 53 1024 z 0 false) = z * 2 ^ 1074.
Proof.
  intros Hz. destruct (Z.eq_dec z 0) as [->|Hnz].
  { cbn. auto. }
  rewrite of_int_small by lia.
  destruct z as [|p|p]; try lia.
  pose proof (Zdigits2_bounds p) as Hb.
  set (d := Zdigits2 (Z.pos p)) in *.
  assert (Hd1 : 1 <= d) by (unfold d; cbn; lia).
  assert (Hd : d <= 53).
  { assert (d - 1 < 53); [|lia]. apply (Z.pow_lt_mono_r_iff 2); lia. }
  assert (E1 : 2 ^ 52 = 2 ^ (d - 1) * 2 ^ (53 - d)).
  { rewrite <- Z.pow_add_r by lia. f_equal. lia. }
  assert (E2 : 2 ^ 53 = 2 ^ d * 2 ^ (53 - d)).
  { rewrite <- Z.pow_add_r by lia. f_equal. lia. }
  assert (HP : 0 < 2 ^ (53 - d)) by (apply Z.pow_pos_nonneg; lia).
  assert (Hpos : 0 < Z.pos p * 2 ^ (53 - d)) by nia.
  cbn [nonneg_normal exp_in sval].
  rewrite Z2Pos.id by exact Hpos.
  split; [|split].
  - split; [|lia]. rewrite E1, E2. nia.
  - lia.
  - rewrite <- Z.mul_assoc, <- Z.pow_add_r by lia. do 2 f_equal. lia.
Qed.

Lemma div_1e9_zero :
  SFdiv 53 1024 (S754_zero false) f64_1e9 = S754_zero false.
Proof. reflexivity. Qed.

Lemma div_1e9_props (x : spec_float) :
  nonneg_normal x -> exp_in (-52) 0 x ->
  nonneg_normal (SFdiv 53 1024 x f64_1e9) /\
  exp_in (-82) (-28) (SFdiv 53 1024 x f64_1e9).
Proof.
  destruct x as [[|]| | |[|] m e]; cbn [nonneg_normal exp_in]; try tauto.
  intros [Hm _] He.
  destruct (div_1e9_conditions m Hm) as [Hq Hd].
  destruct (frac_digits (Z.pos m * 2 ^ 53) 8388608000000000 ltac:(lia) Hq)
    as (Hd' & _).
  rewrite div_1e9_spec by lia. split.
  - apply round_frac_spec; lia.
  - unfold round_frac. eapply exp_in_weaken; [| |apply canon_exp]; lia.
Qed.

(** Division by [1e9] is monotone. *)
Lemma div_1e9_mono (x x' : spec_float) :
  nonneg_normal x -> exp_in (-52) 0 x ->
  nonneg_normal x' -> exp_in (-52) 0 x' ->
  sval x <= sval x' ->
  sval (SFdiv 53 1024 x f64_1e9) <= sval (SFdiv 53 1024 x' f64_1e9).
Proof.
  intros Hx Ex Hx' Ex' Hle.
  destruct x as [[|]| | |[|] m e]; cbn [nonneg_normal] in Hx; try tauto.
  { rewrite div_1e9_zero. apply sval_nonneg. }
  destruct x' as [[|]| | |[|] m' e']; cbn [nonneg_normal] in Hx'; try tauto.
  { exfalso. cbn [sval] in Hle.
    assert (0 < 2 ^ (e + 1074)) by (apply Z.pow_pos_nonneg; cbn in Ex; lia).
    nia. }
  cbn [exp_in] in Ex, Ex'. destruct Hx as [Hm _], Hx' as [Hm' _].
  destruct (div_1e9_conditions m Hm) as [Hq Hd].
  destruct (div_1e9_conditions m' Hm') as [Hq' Hd'].
  rewrite !div_1e9_spec by lia.
  apply round_frac_mono; try lia.
  cbn [sval] in Hle.
  replace (e + 1074) with (30 + (e - 30 + 1074)) in Hle by lia.
  replace (e' + 1074) with (30 + (e' - 30 + 1074)) in Hle by lia.
  rewrite (Z.pow_add_r 2 30 (e - 30 + 1074)) in Hle by lia.
  rewrite (Z.pow_add_r 2 30 (e' - 30 + 1074)) in Hle by lia.
  assert (0 < 2 ^ (e - 30 + 1074)) by (apply Z.pow_pos_nonneg; lia).
  assert (0 < 2 ^ (e' - 30 + 1074)) by (apply Z.pow_pos_nonneg; lia).
  change (2 ^ 30) with 1073741824 in Hle. change (2 ^ 53) with 9007199254740992.
  nia.
Qed.

(** A sum of non-negative numbers is [+0] or the rounding of the exact sum. *)
Lemma add_repr (x y : spec_float) :
  nonneg_normal x -> nonneg_normal y ->
  exp_in (-1074) 900 x -> exp_in (-1074) 900 y ->
  (SFadd 53 1024 x y = S754_zero false /\ sval x + sval y = 0) \/
  (exists M ez : Z,
      SFadd 53 1024 x y = round_frac M 1 ez /\
      2 ^ 52 <= M /\ -1074 <= ez /\
      ez + (Zdigits2 M - 53) + 1 <= 971 /\
      M * 2 ^ (ez + 1074) = sval x + sval y).
Proof.
  intros Hx Hy Ex Ey.
  destruct x as [[|]| | |[|] m e]; cbn [nonneg_normal] in Hx;
    try contradiction;
    destruct y as [[|]| | |[|] m' e']; cbn [nonneg_normal] in Hy;
    try contradiction;
    cbn [exp_in] in Ex, Ey.
  - left. split; reflexivity.
  - right. exists (Z.pos m'), e'. destruct Hy as [Hm' _].
    rewrite round_frac_exact by exact Hm'.
    rewrite (Zdigits2_unique (Z.pos m') 53)
      by (change (2 ^ (53 - 1)) with (2 ^ 52); lia).
    repeat split; try lia; try reflexivity; cbn [sval]; lia.
  - right. exists (Z.pos m), e. destruct Hx as [Hm _].
    rewrite round_frac_exact by exact Hm.
    rewrite (Zdigits2_unique (Z.pos m) 53)
      by (change (2 ^ (53 - 1)) with (2 ^ 52); lia).
    repeat split; try lia; try reflexivity; cbn [sval]; lia.
  - right. destruct Hx as [Hm _], Hy as [Hm' _].
    destruct (add_normal_spec m m' e e' Hm Hm' Ex Ey) as (M & H1 & H2 & H3 & H4).
    exists M, (Z.min e e'). repeat split; try assumption; lia.
Qed.

Lemma add_nonneg_normal (x y : spec_float) :
  nonneg_normal x -> nonneg_normal y ->
  exp_in (-1074) 900 x -> exp_in (-1074) 900 y ->
  nonneg_normal (SFadd 53 1024 x y).
Proof.
  intros Hx Hy Ex Ey.
  destruct (add_repr x y Hx Hy Ex Ey)
    as [[-> _]|(M & ez & -> & HM & Hez & Hov & _)].
  - exact I.
  - apply round_frac_spec; rewrite ?Z.div_1_r; lia.
Qed.

(** Addition is monotone in the exact sum of its operands. *)
Lemma add_mono (x y x' y' : spec_float) :
  nonneg_normal x -> nonneg_normal y ->
  exp_in (-1074) 900 x -> exp_in (-1074) 900 y ->
  nonneg_normal x' -> nonneg_normal y' ->
  exp_in (-1074) 900 x' -> exp_in (-1074) 900 y' ->
  sval x + sval y <= sval x' + sval y' ->
  sval (SFadd 53 1024 x y) <= sval (SFadd 53 1024 x' y').
Proof.
  intros Hx Hy Ex Ey Hx' Hy' Ex' Ey' Hle.
  destruct (add_repr x y Hx Hy Ex Ey)
    as [[-> _]|(M & ez & -> & HM & Hez & Hov & Hv)].
  { apply sval_nonneg. }
  destruct (add_repr x' y' Hx' Hy' Ex' Ey')
    as [[_ H0]|(M' & ez' & -> & HM' & Hez' & Hov' & Hv')].
  { exfalso.
    assert (0 < 2 ^ (ez + 1074)) by (apply Z.pow_pos_nonneg; lia).
    nia. }
  apply round_frac_mono; rewrite ?Z.div_1_r; try lia.
Qed.

(* ===================================================================== *)
(** ** Duration.Seconds and Time.Sub                                      *)
(* ===================================================================== *)

Lemma Seconds_nonneg (d : time.Duration) :
  0 <= d ->
  time.Seconds d =
    SFadd 53 1024
      (binary_normalize 53 1024 (d / 1000000000) 0 false)
      (SFdiv 53 1024 (binary_normalize 53 1024 (d mod 1000000000) 0 false)
         f64_1e9).
Proof.
  intros Hd. unfold time.Seconds, time.Second.
  rewrite Z.quot_div_nonneg, Z.rem_mod_nonneg by lia.
  reflexivity.
Qed.

(** The float of the seconds and the float of the fraction of a second. *)
Lemma Seconds_parts (d : time.Duration) :
  0 <= d < 2 ^ 63 ->
  let x := binary_normalize 53 1024 (d / 1000000000) 0 false in
  let y :=
    SFdiv 53 1024 (binary_normalize 53 1024 (d mod 1000000000) 0 false)
      f64_1e9 in
  nonneg_normal x /\ exp_in (-1074) 900 x /\
  nonneg_normal y /\ exp_in (-1074) 900 y /\
  sval x = d / 1000000000 * 2 ^ 1074 /\
  sval y <= 2 ^ 1074.
Proof.
  intros Hd x y.
  assert (Hsec : 0 <= d / 1000000000 < 2 ^ 53).
  { split; [apply Z.div_pos; lia|].
    apply Z.div_lt_upper_bound; lia. }
  pose proof (Z.mod_pos_bound d 1000000000 ltac:(lia)) as Hns.
  destruct (of_int_spec (d / 1000000000) Hsec) as (Hx & Ex & Vx).
  destruct (of_int_spec (d mod 1000000000) ltac:(lia)) as (Hn & En & Vn).
  destruct (div_1e9_props _ Hn En) as (Hy & Ey).
  repeat split; try assumption.
  - eapply exp_in_weaken; [| |exact Ex]; lia.
  - eapply exp_in_weaken; [| |exact Ey]; lia.
  - change (2 ^ 1074) with (sval (SFdiv 53 1024 f64_1e9 f64_1e9)).
    apply div_1e9_mono; try assumption.
    + cbn. lia.
    + cbn. lia.
    + rewrite Vn. change (sval f64_1e9) with (1000000000 * 2 ^ 1074).
      apply Z.mul_le_mono_nonneg_r; [apply Z.pow_nonneg|]; lia.
Qed.

(** [Seconds] is non-decreasing on the non-negative durations, in the
    order [<=] of [float64]. *)
Lemma Seconds_mono (d d' : time.Duration) :
  0 <= d <= d' -> d' < 2 ^ 63 ->
  F64.leb (time.Seconds d) (time.Seconds d') = true.
Proof.
  intros Hd Hd'.
  rewrite !Seconds_nonneg by lia.
  destruct (Seconds_parts d ltac:(lia)) as (Hx & Ex & Hy & Ey & Vx & Vy).
  destruct (Seconds_parts d' ltac:(lia)) as (Hx' & Ex' & Hy' & Ey' & Vx' & Vy').
  cbv zeta in *.
  unfold F64.leb.
  apply nonneg_normal_leb; try (apply add_nonneg_normal; assumption).
  apply add_mono; try assumption.
  rewrite Vx, Vx'.
  assert (Hq : d / 1000000000 <= d' / 1000000000)
    by (apply Z.div_le_mono; lia).
  assert (HP : 0 < 2 ^ 1074) by (apply Z.pow_pos_nonneg; lia).
  destruct (Z.eq_dec (d / 1000000000) (d' / 1000000000)) as [Heq|Hne].
  - rewrite Heq. apply Z.add_le_mono_l.
    assert (Hns : 0 <= d mod 1000000000 < 2 ^ 53).
    { pose proof (Z.mod_pos_bound d 1000000000 ltac:(lia)). lia. }
    assert (Hns' : 0 <= d' mod 1000000000 < 2 ^ 53).
    { pose proof (Z.mod_pos_bound d' 1000000000 ltac:(lia)). lia. }
    destruct (of_int_spec _ Hns) as (Hn & En & Vn).
    destruct (of_int_spec _ Hns') as (Hn' & En' & Vn').
    apply div_1e9_mono; try assumption.
    rewrite Vn, Vn'. apply Z.mul_le_mono_nonneg_r; [lia|].
    pose proof (Z.div_mod d 1000000000 ltac:(lia)).
    pose proof (Z.div_mod d' 1000000000 ltac:(lia)).
    lia.
  - pose proof (sval_nonneg
        (SFdiv 53 1024
           (binary_normalize 53 1024 (d' mod 1000000000) 0 false) f64_1e9)).
    nia.
Qed.

Lemma Seconds_zero : time.Seconds 0 = F64.zero.
Proof. reflexivity. Qed.

(** [rne] is within one half of the fraction. *)
Lemma rne_error (N D : Z) : 0 < D -> 2 * Z.abs (rne N D * D - N) <= D.
Proof.
  intros HD. unfold rne.
  pose proof (Z.mod_pos_bound N D HD) as Hr.
  pose proof (Z.div_mod N D ltac:(lia)) as Hdm.
  set (q := N / D) in *. set (r := N mod D) in *.
  destruct (Z.compare_spec (2 * r) D); [destruct (Z.even q)| |]; nia.
Qed.

(** A rounded fraction is within half a unit in the last place of the
    fraction. *)
Lemma round_frac_error (N D e : Z) :
  0 < D -> 2 ^ 52 <= N / D -> -1074 <= e ->
  e + (Zdigits2 (N / D) - 53) + 1 <= 971 ->
  2 * Z.abs (sval (round_frac N D e) * D - N * 2 ^ (e + 1074))
    <= D * 2 ^ (e + (Zdigits2 (N / D) - 53) + 1074).
Proof.
  intros HD Hq He Hov.
  destruct (round_frac_spec N D e HD Hq He Hov) as [_ ->].
  destruct (frac_digits N D HD Hq) as (Hd & _ & _).
  set (n := Zdigits2 (N / D) - 53) in *.
  assert (HP : 0 < 2 ^ n) by (apply Z.pow_pos_nonneg; lia).
  assert (Ha : 0 < 2 ^ (e + 1074)) by (apply Z.pow_pos_nonneg; lia).
  assert (HE : 2 ^ (e + n + 1074) = 2 ^ (e + 1074) * 2 ^ n).
  { rewrite <- Z.pow_add_r by lia. f_equal. lia. }
  assert (HDn : 0 < D * 2 ^ n) by nia.
  pose proof (rne_error N (D * 2 ^ n) HDn) as Herr.
  rewrite HE.
  replace (rne N (D * 2 ^ n) * (2 ^ (e + 1074) * 2 ^ n) * D - N * 2 ^ (e + 1074))
    with (2 ^ (e + 1074) * (rne N (D * 2 ^ n) * (D * 2 ^ n) - N)) by ring.
  rewrite Z.abs_mul, (Z.abs_eq (2 ^ (e + 1074))) by lia.
  nia.
Qed.

(** The fraction of a second: [float64(nsec)/1e9] is within [2^-54] of
    [nsec / 10^9]. *)
Lemma div_1e9_error (nsec : Z) :
  0 <= nsec < 1000000000 ->
  2 * Z.abs (sval (SFdiv 53 1024 (binary_normalize 53 1024 nsec 0 false)
                     f64_1e9) * 1000000000
             - nsec * 2 ^ 1074)
    <= 1000000000 * 2 ^ 1021.
Proof.
  intros Hn.
  destruct (of_int_spec nsec ltac:(lia)) as (Hx & Ex & Vx).
  destruct (binary_normalize 53 1024 nsec 0 false)
    as [[|]| | |[|] mx ex] eqn:Eof; cbn [nonneg_normal] in Hx;
    try contradiction.
  { cbn in Vx. assert (nsec = 0) by lia. subst nsec. cbn. lia. }
  cbn [exp_in] in Ex. destruct Hx as [Hm _]. cbn [sval] in Vx.
  destruct (div_1e9_conditions mx Hm) as [Hq Hd].
  rewrite div_1e9_spec by lia.
  destruct (frac_digits (Z.pos mx * 2 ^ 53) 8388608000000000 ltac:(lia) Hq)
    as (Hd53 & Hlo & _).
  pose proof (round_frac_error (Z.pos mx * 2 ^ 53) 8388608000000000 (ex - 30)
                ltac:(lia) Hq ltac:(lia) ltac:(lia)) as Herr.
  set (n := Zdigits2 (Z.pos mx * 2 ^ 53 / 8388608000000000) - 53) in *.
  set (r := sval (round_frac (Z.pos mx * 2 ^ 53) 8388608000000000 (ex - 30))) in *.
  (* the exact quotient, scaled: nsec * 2^1074 * 2^23 *)
  assert (HN : Z.pos mx * 2 ^ 53 * 2 ^ (ex - 30 + 1074)
               = nsec * 2 ^ 1074 * 2 ^ 23).
  { rewrite <- Vx.
    replace (ex + 1074) with (30 + (ex - 30 + 1074)) by lia.
    rewrite (Z.pow_add_r 2 30 (ex - 30 + 1074)) by lia.
    change (2 ^ 53) with (2 ^ 30 * 2 ^ 23). ring. }
  rewrite HN in Herr.
  (* the binade of the quotient is below 1 *)
  assert (HP : 0 < 2 ^ n) by (apply Z.pow_pos_nonneg; lia).
  assert (Ha : 0 < 2 ^ (ex - 30 + 1074)) by (apply Z.pow_pos_nonneg; lia).
  assert (HE : 2 ^ (ex - 30 + n + 1074) = 2 ^ (ex - 30 + 1074) * 2 ^ n).
  { rewrite <- Z.pow_add_r by lia. f_equal. lia. }
  assert (Hbin : 2 ^ 52 * 2 ^ (ex - 30 + n + 1074) < 2 ^ 1074).
  { rewrite HE.
    assert (H1 : 2 ^ 52 * (8388608000000000 * 2 ^ n) * 2 ^ (ex - 30 + 1074)
                 <= nsec * 2 ^ 1074 * 2 ^ 23).
    { rewrite <- HN. apply Z.mul_le_mono_nonneg_r; [lia|exact Hlo]. }
    assert (H2 : nsec * 2 ^ 1074 * 2 ^ 23 < 1000000000 * 2 ^ 1074 * 2 ^ 23).
    { apply Z.mul_lt_mono_pos_r; [reflexivity|].
      apply Z.mul_lt_mono_pos_r; [apply Z.pow_pos_nonneg; lia|lia]. }
    change 8388608000000000 with (1000000000 * 2 ^ 23) in H1.
    change (2 ^ 23) with 8388608 in *. nia. }
  assert (Hexp : ex - 30 + n + 1074 <= 1021).
  { assert (52 + (ex - 30 + n + 1074) < 1074); [|lia].
    apply (Z.pow_lt_mono_r_iff 2); [lia|lia|].
    rewrite Z.pow_add_r by lia. exact Hbin. }
  assert (Hpow : 2 ^ (ex - 30 + n + 1074) <= 2 ^ 1021)
    by (apply Z.pow_le_mono_r; lia).
  change 8388608000000000 with (1000000000 * 2 ^ 23) in Herr.
  replace (r * (1000000000 * 2 ^ 23) - nsec * 2 ^ 1074 * 2 ^ 23)
    with ((r * 1000000000 - nsec * 2 ^ 1074) * 2 ^ 23) in Herr by ring.
  rewrite Z.abs_mul, (Z.abs_eq (2 ^ 23)) in Herr by (cbn; lia).
  change (2 ^ 23) with 8388608 in Herr. nia.
Qed.

(** [Seconds] on a duration below [2^k] seconds: a finite non-negative
    number within [2^(k-53) + 2^-54] seconds of the duration. *)
Lemma Seconds_error (d k : Z) :
  0 <= d < 2 ^ 63 -> 0 <= k -> d < 1000000000 * 2 ^ k ->
  nonneg_normal (time.Seconds d) /\
  2 * Z.abs (sval (time.Seconds d) * 1000000000 - d * 2 ^ 1074)
    <= 1000000000 * (2 ^ (k + 1022) + 2 ^ 1021).
Proof.
  intros Hd Hk Hdk.
  rewrite Seconds_nonneg by lia.
  destruct (Seconds_parts d Hd) as (Hx & Ex & Hy & Ey & Vx & Vy).
  cbv zeta in *.
  pose proof (Z.mod_pos_bound d 1000000000 ltac:(lia)) as Hns.
  pose proof (Z.div_mod d 1000000000 ltac:(lia)) as Hdm.
  pose proof (div_1e9_error (d mod 1000000000) Hns) as Hye.
  set (x := binary_normalize 53 1024 (d / 1000000000) 0 false) in *.
  set (y := SFdiv 53 1024
              (binary_normalize 53 1024 (d mod 1000000000) 0 false) f64_1e9) in *.
  set (sec := d / 1000000000) in *. set (nsec := d mod 1000000000) in *.
  assert (Hsec : 0 <= sec) by (apply Z.div_pos; lia).
  assert (Hsk : sec + 1 <= 2 ^ k).
  { assert (sec < 2 ^ k); [|lia].
    apply Z.div_lt_upper_bound; lia. }
  assert (H74 : 0 < 2 ^ 1074) by (apply Z.pow_pos_nonneg; lia).
  assert (H21 : 0 < 2 ^ 1021) by (apply Z.pow_pos_nonneg; lia).
  assert (Hk22 : 0 < 2 ^ (k + 1022)) by (apply Z.pow_pos_nonneg; lia).
  pose proof (sval_nonneg y) as Hy0.
  split; [apply add_nonneg_normal; assumption|].
  destruct (add_repr x y Hx Hy Ex Ey)
    as [[-> Hsum]|(M & ez & -> & HM & Hez & Hov & Hv)].
  - cbn [sval].
    assert (sval x = 0) by lia. assert (sval y = 0) by lia.
    assert (sec = 0) by nia.
    replace (0 * 1000000000 - d * 2 ^ 1074)
      with (sval y * 1000000000 - nsec * 2 ^ 1074) by nia.
    lia.
  - pose proof (round_frac_error M 1 ez ltac:(lia)
                  ltac:(rewrite Z.div_1_r; lia) Hez
                  ltac:(rewrite Z.div_1_r; lia)) as Herr.
    destruct (frac_digits M 1 ltac:(lia) ltac:(rewrite Z.div_1_r; lia))
      as (Hd53 & Hlo & _).
    rewrite Z.div_1_r in *. rewrite Z.mul_1_r in Herr. rewrite Z.mul_1_l in *.
    set (n := Zdigits2 M - 53) in *.
    set (r := sval (round_frac M 1 ez)) in *.
    assert (HP : 0 < 2 ^ n) by (apply Z.pow_pos_nonneg; lia).
    assert (Ha : 0 < 2 ^ (ez + 1074)) by (apply Z.pow_pos_nonneg; lia).
    assert (HE : 2 ^ (ez + n + 1074) = 2 ^ (ez + 1074) * 2 ^ n).
    { rewrite <- Z.pow_add_r by lia. f_equal. lia. }
    assert (Hbin : 2 ^ 52 * 2 ^ (ez + n + 1074) <= 2 ^ k * 2 ^ 1074).
    { rewrite HE.
      assert (2 ^ 52 * 2 ^ n * 2 ^ (ez + 1074) <= M * 2 ^ (ez + 1074))
        by (apply Z.mul_le_mono_nonneg_r; lia).
      assert ((sec + 1) * 2 ^ 1074 <= 2 ^ k * 2 ^ 1074)
        by (apply Z.mul_le_mono_nonneg_r; lia).
      nia. }
    assert (Hexp : ez + n + 1074 <= k + 1022).
    { assert (52 + (ez + n + 1074) <= k + 1074); [|lia].
      apply (Z.pow_le_mono_r_iff 2); [lia|lia|].
      rewrite (Z.pow_add_r 2 52), (Z.pow_add_r 2 k 1074) by lia.
      exact Hbin. }
    assert (Hpow : 2 ^ (ez + n + 1074) <= 2 ^ (k + 1022))
      by (apply Z.pow_le_mono_r; lia).
    replace (r * 1000000000 - d * 2 ^ 1074)
      with ((r - M * 2 ^ (ez + 1074)) * 1000000000
            + (sval y * 1000000000 - nsec * 2 ^ 1074))
      by (rewrite Hv, Vx; nia).
    pose proof (Z.abs_triangle ((r - M * 2 ^ (ez + 1074)) * 1000000000)
                  (sval y * 1000000000 - nsec * 2 ^ 1074)) as Htri.
    rewrite Z.abs_mul, (Z.abs_eq 1000000000) in Htri by lia.
    nia.
Qed.

Lemma Sub_exact (t u : time.Time) :
  time.minDuration <= t - u <= time.maxDuration -> time.Sub t u = t - u.
Proof.
  intros H. unfold time.Sub.
  destruct (Z.ltb_spec time.maxDuration (t - u)); [lia|].
  destruct (Z.ltb_spec (t - u) time.minDuration); [lia|reflexivity].
Qed.

Lemma Sub_range (t u : time.Time) :
  time.minDuration <= time.Sub t u <= time.maxDuration.
Proof.
  unfold time.Sub.
  destruct (Z.ltb_spec time.maxDuration (t - u));
    [unfold time.minDuration, time.maxDuration; lia|].
  destruct (Z.ltb_spec (t - u) time.minDuration);
    [unfold time.minDuration, time.maxDuration; lia|lia].
Qed.

Lemma Sub_mono (t t' u : time.Time) :
  u <= t <= t' -> 0 <= time.Sub t u <= time.Sub t' u.
Proof.
  intros H. unfold time.Sub.
  assert (Hmin : time.minDuration < 0) by reflexivity.
  assert (Hmax : 0 < time.maxDuration) by reflexivity.
  destruct (Z.ltb_spec time.maxDuration (t - u));
    destruct (Z.ltb_spec time.maxDuration (t' - u));
    destruct (Z.ltb_spec (t - u) time.minDuration);
    destruct (Z.ltb_spec (t' - u) time.minDuration); lia.
Qed.

(** On a later instant, [Sub] is the difference, capped at the largest
    Duration. *)
Lemma Sub_min (t u : time.Time) :
  u <= t -> time.Sub t u = Z.min (t - u) time.maxDuration.
Proof.
  intros H. unfold time.Sub.
  assert (Hmin : time.minDuration < 0) by reflexivity.
  destruct (Z.ltb_spec time.maxDuration (t - u)); [lia|].
  destruct (Z.ltb_spec (t - u) time.minDuration); lia.
Qed.

Lemma chronological_tail (m : Measurement) (ms : list Measurement) :
  chronological (m :: ms) -> chronological ms.
Proof. destruct ms; cbn; tauto. Qed.

(** In a chronological log, no timestamp is below an earlier one. *)
Lemma chronological_le (ms : list Measurement) :
  chronological ms ->
  forall (i j : nat) (mi mj : Measurement),
    (i <= j)%nat -> ms !! i = Some mi -> ms !! j = Some mj ->
    timestamp mi <= timestamp mj.
Proof.
  induction ms as [|m ms IH]; intros Hc i j mi mj Hij Hi Hj.
  - discriminate.
  - assert (Hhead : forall (k : nat) (mk : Measurement),
               (m :: ms) !! k = Some mk -> timestamp m <= timestamp mk).
    { clear i j mi mj Hij Hi Hj. intros k.
      induction k as [|k IHk]; intros mk Hk.
      - injection Hk as <-. lia.
      - destruct ms as [|m2 ms2]; [discriminate|].
        destruct Hc as [H12 Hc2].
        transitivity (timestamp m2); [exact H12|].
        apply (IH Hc2 0%nat k m2 mk); [lia|reflexivity|exact Hk]. }
    destruct i as [|i].
    + injection Hi as <-. exact (Hhead j mj Hj).
    + destruct j as [|j]; [lia|].
      apply (IH (chronological_tail _ _ Hc) i j); [lia|exact Hi|exact Hj].
Qed.

(* ===================================================================== *)
(** ** The series built by generateChart                                  *)
(* ===================================================================== *)

Section DataPoints.

Variable startTime : time.Time.

Lemma pointsStep_fill (pa pb ra rb : plotter.XYs) (za zb : plotter.XY)
    (m : Measurement) :
  length pa = length pb ->
  pointsStep startTime (pa ++ za :: ra, pb ++ zb :: rb) (length pa, m) =
    (pa ++ setY (F64.of_int (connections m))
              (setX (relativeTime startTime m) za) :: ra,
     pb ++ setY (F64.of_int (time.Milliseconds (queryDuration m)))
              (setX (relativeTime startTime m) zb) :: rb).
Proof.
  intros Hlen. unfold pointsStep, relativeTime.
  rewrite !(alter_app_r_alt _ pa) by lia.
  rewrite Hlen.
  rewrite !(alter_app_r_alt _ pb) by lia.
  rewrite !Nat.sub_diag. reflexivity.
Qed.

Lemma foldl_pointsStep (ms : list Measurement) :
  forall pa pb : plotter.XYs,
    length pa = length pb ->
    foldl (pointsStep startTime)
      (pa ++ replicate (length ms) zeroXY, pb ++ replicate (length ms) zeroXY)
      (zip (seq (length pa) (length ms)) ms) =
    (pa ++ (pointA startTime <$> ms), pb ++ (pointB startTime <$> ms)).
Proof.
  induction ms as [|m ms IH]; intros pa pb Hlen.
  - reflexivity.
  - cbn [length replicate seq zip zip_with foldl fmap list_fmap].
    rewrite pointsStep_fill by assumption.
    change (setY (F64.of_int (connections m))
              (setX (relativeTime startTime m) zeroXY))
      with (pointA startTime m).
    change (setY (F64.of_int (time.Milliseconds (queryDuration m)))
              (setX (relativeTime startTime m) zeroXY))
      with (pointB startTime m).
    rewrite (cons_middle (pointA startTime m)), (cons_middle (pointB startTime m)).
    rewrite !app_assoc.
    specialize (IH (pa ++ [pointA startTime m]) (pb ++ [pointB startTime m])).
    rewrite !length_app in IH. simpl in IH.
    rewrite Nat.add_1_r in IH.
    rewrite IH by lia.
    rewrite <- !app_assoc. reflexivity.
Qed.

(** The loop fills both series with the points of the Measurements, in
    order. *)
Lemma dataPoints_fmap (ms : list Measurement) :
  dataPoints startTime ms = (pointA startTime <$> ms, pointB startTime <$> ms).
Proof.
  unfold dataPoints.
  exact (foldl_pointsStep ms [] [] eq_refl).
Qed.

End DataPoints.

(* ===================================================================== *)
(** ** generateChart: effects and frame                                   *)
(* ===================================================================== *)

Ltac canvas_cases H :=
  repeat (apply elem_of_cons in H as [H|H]; [exact H|]); inversion H.

(** Every call only adds events to the world, and every canvas among them
    is [img]; the variable [measurements] is left as it was. *)
Lemma generateChart_emits (env : RenderEnv) (w : World) :
  exists evs : list event,
    snd (generateChart env w) = emit evs w /\
    forall c : Canvas, c ∈ canvases_of evs -> c = img.
Proof.
  unfold generateChart.
  destruct (measurements w) as [|m0 rest] eqn:Hms.
  { exists []. split.
    - destruct w; unfold emit; simpl. now rewrite app_nil_r.
    - intros c Hc. inversion Hc. }
  destruct (dataPoints (timestamp m0) (m0 :: rest)) as [cp dp].
  destruct (NewLinePoints_err env cp).
  { exists []. split.
    - destruct w; unfold emit; simpl. now rewrite app_nil_r.
    - intros c Hc. inversion Hc. }
  destruct (NewLinePoints_err env dp).
  { exists []. split.
    - destruct w; unfold emit; simpl. now rewrite app_nil_r.
    - intros c Hc. inversion Hc. }
  destruct (Create_err env); [|destruct (WriteTo_err env)].
  - eexists. split; [reflexivity|].
    intros c Hc. simpl in Hc. canvas_cases Hc.
  - eexists. split.
    + unfold emit; simpl. rewrite <- !app_assoc. reflexivity.
    + intros c Hc. simpl in Hc. canvas_cases Hc.
  - eexists. split.
    + unfold emit; simpl. rewrite <- !app_assoc. reflexivity.
    + intros c Hc. simpl in Hc. canvas_cases Hc.
Qed.

Lemma generateChart_measurements (env : RenderEnv) (w : World) :
  measurements (snd (generateChart env w)) = measurements w.
Proof.
  destruct (generateChart_emits env w) as (evs & -> & _). reflexivity.
Qed.

(** The events of a successful call. *)
Lemma generateChart_success (env : RenderEnv) (w w' : World)
    (m0 : Measurement) (rest : list Measurement) :
  measurements w = m0 :: rest ->
  generateChart env w = (None, w') ->
  w' = emit
         [EvDraw 0 0
            (connectionsPlot (fst (dataPoints (timestamp m0) (m0 :: rest))))
            tiles img;
          EvDraw 1 0
            (durationPlot (snd (dataPoints (timestamp m0) (m0 :: rest))))
            tiles img;
          EvCreate (filename env);
          EvWrite (filename env) img;
          EvLog ("Chart saved as " +:+ filename env);
          EvClose (filename env)] w.
Proof.
  intros Hms. unfold generateChart. rewrite Hms.
  destruct (dataPoints (timestamp m0) (m0 :: rest)) as [cp dp]. simpl.
  destruct (NewLinePoints_err env cp); [discriminate|].
  destruct (NewLinePoints_err env dp); [discriminate|].
  destruct (Create_err env); [discriminate|].
  destruct (WriteTo_err env); [discriminate|].
  intros [= <-]. unfold emit; simpl. rewrite <- !app_assoc. reflexivity.
Qed.

(* ===================================================================== *)
(** ** The claims about the renderer                                      *)
(* ===================================================================== *)

(** C1. For an empty Measurement Log, [generateChart] returns the error
    "no measurements to plot" (the empty-log error) and leaves the world as
    it was: nothing is drawn, no file is created and nothing is written. *)
Theorem C1_empty_log_error (env : RenderEnv) (out : list event) :
  generateChart env (mkWorld [] out)
    = (Some "no measurements to plot", mkWorld [] out)
  /\ output (snd (generateChart env (mkWorld [] out))) = out.
Proof. split; reflexivity. Qed.

(** C4. For a non-empty Measurement Log of length n, series A and series B
    have n points each, the point at index i is the one derived from the
    Measurement at index i, and these are the series a successful call puts
    on the two panels. *)
Theorem C4_series_index_correspondence (env : RenderEnv) (w : World)
    (m0 : Measurement) (rest : list Measurement) :
  measurements w = m0 :: rest ->
  length (fst (dataPoints (timestamp m0) (m0 :: rest))) = length (m0 :: rest)
  /\ length (snd (dataPoints (timestamp m0) (m0 :: rest))) = length (m0 :: rest)
  /\ (forall (i : nat) (m : Measurement),
        (m0 :: rest) !! i = Some m ->
        fst (dataPoints (timestamp m0) (m0 :: rest)) !! i
          = Some (pointA (timestamp m0) m)
        /\ snd (dataPoints (timestamp m0) (m0 :: rest)) !! i
          = Some (pointB (timestamp m0) m))
  /\ (forall w' : World,
        generateChart env w = (None, w') ->
        exists evs : list event,
          output w' =
            output w ++
            EvDraw 0 0
              (connectionsPlot (fst (dataPoints (timestamp m0) (m0 :: rest))))
              tiles img
            :: EvDraw 1 0
              (durationPlot (snd (dataPoints (timestamp m0) (m0 :: rest))))
              tiles img
            :: evs).
Proof.
  intros Hms. rewrite dataPoints_fmap. cbn [fst snd].
  rewrite !length_fmap.
  split; [reflexivity|]. split; [reflexivity|]. split.
  - intros i m Hi.
    rewrite !list_lookup_fmap, Hi. split; reflexivity.
  - intros w' Hgc.
    pose proof (generateChart_success env w w' m0 rest Hms Hgc) as ->.
    rewrite dataPoints_fmap. cbn [fst snd].
    eexists. unfold emit. cbn [output]. reflexivity.
Qed.

Lemma C4_witness :
  length (fst (dataPoints 0 sample_log)) = 5%nat
  /\ length (snd (dataPoints 0 sample_log)) = 5%nat.
Proof.
  pose proof (C4_series_index_correspondence quiet_env
                (mkWorld sample_log [])
                (mkMeasurement 0 3 10000000) (tail sample_log) eq_refl)
    as (Ha & Hb & _).
  split; [exact Ha | exact Hb].
Defined.

(** C10. At every index, the point of series A and the point of series B
    have the same x-coordinate. *)
Theorem C10_panels_share_x (startTime : time.Time) (ms : list Measurement)
    (i : nat) :
  plotter.X <$> (fst (dataPoints startTime ms) !! i)
    = plotter.X <$> (snd (dataPoints startTime ms) !! i).
Proof.
  rewrite dataPoints_fmap. cbn [fst snd].
  rewrite !list_lookup_fmap.
  destruct (ms !! i); reflexivity.
Qed.

(** C9. Whatever [generateChart] returns (an error of the series
    construction, of the file creation or of the PNG write, or success), the
    Measurement Log after the call is the log before the call. *)
Theorem C9_render_keeps_log (env : RenderEnv) (w : World) :
  measurements (snd (generateChart env w)) = measurements w
  /\ (forall (err : string) (w' : World),
        generateChart env w = (Some err, w') ->
        measurements w' = measurements w).
Proof.
  split.
  - apply generateChart_measurements.
  - intros err w' H.
    pose proof (generateChart_measurements env w) as Hm.
    rewrite H in Hm. exact Hm.
Qed.

Lemma C9_witness :
  exists (err : string) (w' : World),
    generateChart failing_env (mkWorld sample_log []) = (Some err, w')
    /\ measurements w' = sample_log.
Proof.
  eexists _, _. split; [reflexivity|].
  exact (proj2 (C9_render_keeps_log failing_env (mkWorld sample_log []))
           _ _ eq_refl).
Defined.

(** C6, as stated, fails: the canvas is not twice as high as wide.  Its
    height, 1600 points, differs from twice its width of 1200 points. *)
Lemma C6_counterexample :
  exists w h : float64,
    canvas_w img = vg.Points w /\ canvas_h img = vg.Points h /\
    F64.eqb h (F64.mul (F64.of_int 2) w) = false.
Proof.
  eexists _, _. split; [reflexivity|]. split; [reflexivity|].
  vm_compute. reflexivity.
Qed.

(** C6, amended.  For every input log, every canvas [generateChart] draws on
    or writes out is 1200 points wide and 1600 points high: a tall rectangle
    whose height is 4/3 of its width (3 x height = 4 x width). *)
Theorem C6_canvas_is_1200_by_1600 (env : RenderEnv) (w : World) :
  exists evs : list event,
    snd (generateChart env w) = emit evs w /\
    Forall (fun c : Canvas =>
              canvas_w c = vg.Points (F64.of_int 1200) /\
              canvas_h c = vg.Points (F64.of_int 1600))
      (canvases_of evs) /\
    F64.mul (F64.of_int 3) (F64.of_int 1600)
      = F64.mul (F64.of_int 4) (F64.of_int 1200).
Proof.
  destruct (generateChart_emits env w) as (evs & Hw & Hc).
  exists evs. split; [exact Hw|]. split.
  - apply Forall_forall. intros c Hin.
    rewrite (Hc c Hin). split; vm_compute; reflexivity.
  - vm_compute. reflexivity.
Qed.

(* ===================================================================== *)
(** ** The claims about the sampler                                       *)
(* ===================================================================== *)

(** C5, as stated, fails on the query-failure branch: the Measurement of a
    failed query carries the zero duration, not the elapsed time. *)
Lemma C5_counterexample :
  exists tk : Tick,
    tick_result tk = QueryErr "timeout" /\
    time.Sub (tick_end tk) (tick_start tk) = 5000000 /\
    queryDuration (fst (collectMetrics tk)) = 0 /\
    queryDuration (fst (collectMetrics tk))
      <> time.Sub (tick_end tk) (tick_start tk).
Proof.
  exists failed_tick.
  repeat split. discriminate.
Qed.

(** C5, amended.  For every tick, the Measurement the Sampler appends has
    the pre-query timestamp; when the query succeeds its queryLatency is the
    elapsed time measured for that query and its count is the returned one;
    when the query fails its queryLatency and its count are zero. *)
Theorem C5_measurement_of_tick (tk : Tick) :
  timestamp (fst (collectMetrics tk)) = tick_start tk
  /\ match tick_result tk with
     | QueryOk count =>
         queryDuration (fst (collectMetrics tk))
           = time.Sub (tick_end tk) (tick_start tk)
         /\ connections (fst (collectMetrics tk)) = count
     | QueryErr _ =>
         queryDuration (fst (collectMetrics tk)) = 0
         /\ connections (fst (collectMetrics tk)) = 0
     end
  /\ (forall s s1 s2 : Machine.State,
        Machine.step s (Machine.LCollect tk) = Some s1 ->
        Machine.step s1 Machine.LAppend = Some s2 ->
        measurements (Machine.world s2)
          = measurements (Machine.world s) ++ [fst (collectMetrics tk)]).
Proof.
  unfold collectMetrics.
  destruct tk as [start [count|err] finish]; cbn [tick_result tick_start tick_end fst];
    (split; [reflexivity|]); (split; [split; reflexivity|]).
  all: intros s s1 s2 H1 H2; unfold Machine.step in H1;
    destruct (Machine.mainPC s), (Machine.samplerPC s); try discriminate;
    cbn in H1; injection H1 as <-; cbn in H2; injection H2 as <-;
    reflexivity.
Qed.

Lemma C5_witness :
  timestamp (fst (collectMetrics sample_tick)) = 0
  /\ queryDuration (fst (collectMetrics sample_tick)) = 10000000
  /\ timestamp (fst (collectMetrics failed_tick)) = 1000
  /\ queryDuration (fst (collectMetrics failed_tick)) = 0.
Proof.
  pose proof (C5_measurement_of_tick sample_tick) as (H1 & H2 & _).
  pose proof (C5_measurement_of_tick failed_tick) as (H3 & H4 & _).
  split; [exact H1|]. split; [exact (proj1 H2)|].
  split; [exact H3|exact (proj1 H4)].
Defined.

(* ===================================================================== *)
(** ** Executions of main                                                 *)
(* ===================================================================== *)

Module MachineFacts.
Import Machine.

Lemma run_app (ls1 ls2 : list label) :
  forall s : State,
    run s (ls1 ++ ls2) =
      match run s ls1 with
      | Some s' => run s' ls2
      | None => None
      end.
Proof.
  induction ls1 as [|l ls1 IH]; intros s; simpl.
  - reflexivity.
  - destruct (step s l); [apply IH | reflexivity].
Qed.

(** One full turn of the loop, from the select statement, when the control
    thread is not blocked in its send. *)
Lemma run_tick (s : State) (tk : Tick) :
  samplerPC s = SSelect ->
  mainPC s <> MBlocked ->
  run s (tick_labels tk) =
    Some (mkState (mainPC s) SSelect
            (append_measurement (measure tk)
               (emit (snd (collectMetrics tk)) (world s)))).
Proof.
  intros Hs Hm. unfold tick_labels, measure, run, step.
  rewrite Hs.
  destruct (collectMetrics tk) as [m evs] eqn:Hc.
  destruct (mainPC s); try congruence; reflexivity.
Qed.

Lemma run_ticks (tks : list Tick) :
  forall s : State,
    samplerPC s = SSelect ->
    mainPC s <> MBlocked ->
    exists s' : State,
      run s (tks ≫= tick_labels) = Some s' /\
      samplerPC s' = SSelect /\
      mainPC s' = mainPC s /\
      measurements (world s') = measurements (world s) ++ (measure <$> tks).
Proof.
  induction tks as [|tk tks IH]; intros s Hs Hm.
  - exists s. simpl. rewrite app_nil_r. auto.
  - rewrite bind_cons, run_app, (run_tick s tk Hs Hm).
    destruct (IH (mkState (mainPC s) SSelect
                    (append_measurement (measure tk)
                       (emit (snd (collectMetrics tk)) (world s)))))
      as (s' & Hrun & Hs' & Hm' & Hlog); [reflexivity | exact Hm |].
    exists s'. repeat split; try assumption.
    rewrite Hlog. simpl. rewrite <- app_assoc. reflexivity.
Qed.

(** In every execution the log, followed by the Measurement collected and
    not yet appended, lists the Measurements of the ticks so far. *)
Lemma step_log (s s' : State) (l : label) :
  step s l = Some s' ->
  measurements (world s') ++ pending s' =
    (measurements (world s) ++ pending s) ++ (measure <$> ticks_of [l]).
Proof.
  unfold step, pending, ticks_of, measure.
  destruct l, (mainPC s), (samplerPC s); try discriminate; simpl;
    try (intros [= <-]; simpl; rewrite ?app_nil_r; reflexivity).
  all: try (destruct (collectMetrics tk) as [m0 evs];
            intros [= <-]; simpl; rewrite ?app_nil_r; reflexivity).
  all: destruct (generateChart env _) as [err w'] eqn:Hgc;
    intros [= <-]; simpl; rewrite ?app_nil_r;
    pose proof (generateChart_measurements env
      (emit [EvLog "Stopping monitoring and generating chart..."] (world s)))
      as Hm; rewrite Hgc in Hm; simpl in Hm;
    destruct err; simpl; rewrite Hm; reflexivity.
Qed.

Lemma run_log (ls : list label) :
  forall s s' : State,
    run s ls = Some s' ->
    measurements (world s') ++ pending s' =
      (measurements (world s) ++ pending s) ++ (measure <$> ticks_of ls).
Proof.
  induction ls as [|l ls IH]; intros s s' Hrun; simpl in Hrun.
  - injection Hrun as <-. simpl. now rewrite app_nil_r.
  - destruct (step s l) as [s1|] eqn:Hstep; [|discriminate].
    rewrite (IH _ _ Hrun), (step_log _ _ _ Hstep).
    change (l :: ls) with ([l] ++ ls).
    unfold ticks_of. rewrite omap_app, fmap_app, app_assoc. reflexivity.
Qed.

(** Once the goroutine has returned, a step is a step of the control
    thread: it is no tick and no append, and it keeps the log. *)
Lemma step_after_return (s s' : State) (l : label) :
  samplerPC s = SReturned ->
  step s l = Some s' ->
  samplerPC s' = SReturned /\
  measurements (world s') = measurements (world s) /\
  l <> LAppend /\ is_collect l = None.
Proof.
  intros Hs. unfold step. rewrite Hs.
  destruct l, (mainPC s); try discriminate;
    try (intros [= <-]; repeat split; discriminate).
  destruct (generateChart env _) as [err w'] eqn:Hgc.
  intros [= <-]. simpl.
  pose proof (generateChart_measurements env
      (emit [EvLog "Stopping monitoring and generating chart..."] (world s)))
      as Hm. rewrite Hgc in Hm. simpl in Hm.
  repeat split; try discriminate. destruct err; exact Hm.
Qed.

Lemma run_after_return (ls : list label) :
  forall s s' : State,
    samplerPC s = SReturned ->
    run s ls = Some s' ->
    samplerPC s' = SReturned /\
    measurements (world s') = measurements (world s) /\
    (LAppend ∉ ls) /\ ticks_of ls = [].
Proof.
  induction ls as [|l ls IH]; intros s s' Hs Hrun; simpl in Hrun.
  - injection Hrun as <-. repeat split; auto. apply not_elem_of_nil.
  - destruct (step s l) as [s1|] eqn:Hstep; [|discriminate].
    destruct (step_after_return _ _ _ Hs Hstep) as (Hs1 & Hm1 & Hl & Hc).
    destruct (IH _ _ Hs1 Hrun) as (Hs' & Hm' & Hnot & Htk).
    repeat split; try assumption.
    + congruence.
    + intros Hin. apply elem_of_cons in Hin as [Heq|Hin]; auto.
    + unfold ticks_of in *. simpl. rewrite Hc. exact Htk.
Qed.

(** The handshake step leaves the goroutine returned and the send
    completed. *)
Lemma step_handshake (s s' : State) :
  step s LHandshake = Some s' ->
  mainPC s = MBlocked /\ samplerPC s = SSelect /\
  s' = mkState MAfterSend SReturned (world s).
Proof.
  unfold step.
  destruct (mainPC s), (samplerPC s); try discriminate.
  intros [= <-]. auto.
Qed.

End MachineFacts.

(** C7. A failed query does not end the Sampler loop.  The failure is
    logged and the tick yields the degraded Measurement, pre-query timestamp
    and zero count; from the start of the session, k turns of the loop leave
    the goroutine at its select statement with exactly the k Measurements of
    the k ticks in the log, whatever ticks failed; and in every execution of
    [main] each tick accounts for exactly one Measurement. *)
Theorem C7_failed_query_keeps_sampling :
  (forall (start finish : time.Time) (err : string),
      collectMetrics (mkTick start (QueryErr err) finish)
        = (mkMeasurement start 0 0,
           [EvLog ("Error querying ClickHouse: " +:+ err)]))
  /\ (forall tks : list Tick,
        exists s : Machine.State,
          Machine.run Machine.init (tks ≫= Machine.tick_labels) = Some s /\
          Machine.samplerPC s = Machine.SSelect /\
          measurements (Machine.world s) = Machine.measure <$> tks /\
          length (measurements (Machine.world s)) = length tks)
  /\ (forall (ls : list Machine.label) (s : Machine.State),
        Machine.run Machine.init ls = Some s ->
        measurements (Machine.world s) ++ Machine.pending s
          = Machine.measure <$> Machine.ticks_of ls).
Proof.
  split; [reflexivity|]. split.
  - intros tks.
    destruct (MachineFacts.run_ticks tks Machine.init eq_refl)
      as (s & Hrun & Hs & _ & Hlog); [discriminate|].
    exists s. simpl in Hlog. rewrite Hlog, length_fmap. auto.
  - intros ls s Hrun.
    exact (MachineFacts.run_log ls _ _ Hrun).
Qed.

Lemma C7_witness :
  exists s : Machine.State,
    Machine.run Machine.init
      [Machine.LCollect sample_tick; Machine.LAppend; Machine.LWake;
       Machine.LCollect failed_tick; Machine.LAppend; Machine.LWake;
       Machine.LCollect sample_tick] = Some s
    /\ measurements (Machine.world s) ++ Machine.pending s
        = [mkMeasurement 0 3 10000000; mkMeasurement 1000 0 0;
           mkMeasurement 0 3 10000000].
Proof.
  eexists. split; [reflexivity|].
  exact (proj2 (proj2 C7_failed_query_keeps_sampling)
           [Machine.LCollect sample_tick; Machine.LAppend; Machine.LWake;
            Machine.LCollect failed_tick; Machine.LAppend; Machine.LWake;
            Machine.LCollect sample_tick] _ eq_refl).
Defined.

(** C2. In every execution of [main], under every interleaving of the two
    threads: once the handshake has completed (the send on [done] has
    returned), the goroutine has returned, no step that follows is an append
    or a tick, and the Measurement Log stays what it was at the handshake.
    Every append comes before the handshake. *)
Theorem C2_no_append_after_handshake
    (pre post : list Machine.label) (s1 s2 : Machine.State) :
  Machine.run Machine.init (pre ++ [Machine.LHandshake]) = Some s1 ->
  Machine.run s1 post = Some s2 ->
  Machine.handshake_done s1 = true
  /\ Machine.samplerPC s2 = Machine.SReturned
  /\ measurements (Machine.world s2) = measurements (Machine.world s1)
  /\ (Machine.LAppend ∉ post)
  /\ Machine.ticks_of post = []
  /\ measurements (Machine.world s1) = Machine.measure <$> Machine.ticks_of pre.
Proof.
  intros Hpre Hpost.
  rewrite MachineFacts.run_app in Hpre.
  destruct (Machine.run Machine.init pre) as [s0|] eqn:Hrun0; [|discriminate].
  cbn [Machine.run] in Hpre.
  destruct (Machine.step s0 Machine.LHandshake) as [s1'|] eqn:Hh; [|discriminate].
  injection Hpre as Heq. subst s1'.
  destruct (MachineFacts.step_handshake _ _ Hh) as (Hm0 & Hs0 & ->).
  destruct (MachineFacts.run_after_return post _ s2
              (eq_refl : Machine.samplerPC
                 (Machine.mkState Machine.MAfterSend Machine.SReturned
                    (Machine.world s0)) = Machine.SReturned) Hpost)
    as (Hs2 & Hlog & Hnot & Htk).
  repeat split; try assumption.
  pose proof (MachineFacts.run_log pre _ _ Hrun0) as Hl.
  unfold Machine.pending in Hl. rewrite Hs0 in Hl.
  simpl in Hl. rewrite app_nil_r in Hl. exact Hl.
Qed.

Lemma C2_witness :
  exists s1 s2 : Machine.State,
    Machine.run Machine.init
      ([Machine.LCollect sample_tick; Machine.LSignal; Machine.LAppend;
        Machine.LSendBlock; Machine.LWake] ++ [Machine.LHandshake]) = Some s1
    /\ Machine.run s1 [Machine.LRender quiet_env] = Some s2
    /\ measurements (Machine.world s2) = [mkMeasurement 0 3 10000000].
Proof.
  eexists _, _.
  split; [reflexivity|]. split; [reflexivity|].
  pose proof (C2_no_append_after_handshake
                [Machine.LCollect sample_tick; Machine.LSignal; Machine.LAppend;
                 Machine.LSendBlock; Machine.LWake]
                [Machine.LRender quiet_env] _ _ eq_refl eq_refl)
    as (_ & _ & Hlog & _).
  rewrite Hlog. reflexivity.
Defined.

(* ===================================================================== *)
(** ** The claims about the plotted values                                *)
(* ===================================================================== *)

(** C3, as stated, fails: [time.Sub] saturates.  In a chronological log
    whose second timestamp is 2^64 ns (about 584 years) after the first, the
    relative time plotted at index 1 is that of the largest Duration,
    2^63 - 1 ns: it is more than 9 * 10^9 seconds short of the elapsed
    time. *)
Lemma C3_counterexample :
  exists (m0 m1 : Measurement) (p : plotter.XY),
    chronological [m0; m1]
    /\ timestamp m1 - timestamp m0 = 2 ^ 64
    /\ fst (dataPoints (timestamp m0) [m0; m1]) !! 1%nat = Some p
    /\ plotter.X p = time.Seconds time.maxDuration
    /\ sval (plotter.X p) * 1000000000
       < (timestamp m1 - timestamp m0 - 9000000000 * 1000000000) * 2 ^ 1074.
Proof.
  exists (mkMeasurement 0 0 0), (mkMeasurement (2 ^ 64) 0 0).
  eexists. split; [cbn; lia|]. split; [reflexivity|].
  split; [reflexivity|]. split; [reflexivity|].
  vm_compute. reflexivity.
Qed.

(** C3, amended.  For a non-empty Measurement Log with non-decreasing
    timestamps, the relative time at index i is [Seconds] of the duration d
    from the first timestamp to the i-th one, where d is their difference
    when that is at most the largest Duration (2^63 - 1 ns, about 292
    years) and the largest Duration otherwise.  It is a finite non-negative
    float64 within [2^(k-53) + 2^-54] seconds of [d / 10^9] whenever d is
    below [2^k] seconds, hence in every case within [2^-19 + 2^-54] seconds,
    less than 2 microseconds (the inequalities below are these bounds in
    units of [2^-1074 / (2 * 10^9)] seconds).  The sequence of relative
    times is non-decreasing in the order of float64, and its first element
    is exactly +0. *)
Theorem C3_relative_times (m0 : Measurement) (rest : list Measurement) :
  chronological (m0 :: rest) ->
  (forall (i : nat) (m : Measurement),
      (m0 :: rest) !! i = Some m ->
      exists (p : plotter.XY) (d : time.Duration),
        fst (dataPoints (timestamp m0) (m0 :: rest)) !! i = Some p
        /\ d = Z.min (timestamp m - timestamp m0) time.maxDuration
        /\ 0 <= d
        /\ time.Sub (timestamp m) (timestamp m0) = d
        /\ plotter.X p = time.Seconds d
        /\ nonneg_normal (plotter.X p)
        /\ (forall k : Z,
              0 <= k -> d < 1000000000 * 2 ^ k ->
              2 * Z.abs (sval (plotter.X p) * 1000000000 - d * 2 ^ 1074)
                <= 1000000000 * (2 ^ (k + 1022) + 2 ^ 1021))
        /\ 2 * Z.abs (sval (plotter.X p) * 1000000000 - d * 2 ^ 1074)
           <= 1000000000 * (2 ^ (34 + 1022) + 2 ^ 1021))
  /\ (forall (i j : nat) (pi pj : plotter.XY),
        (i <= j)%nat ->
        fst (dataPoints (timestamp m0) (m0 :: rest)) !! i = Some pi ->
        fst (dataPoints (timestamp m0) (m0 :: rest)) !! j = Some pj ->
        F64.leb (plotter.X pi) (plotter.X pj) = true)
  /\ plotter.X <$> (fst (dataPoints (timestamp m0) (m0 :: rest)) !! 0%nat)
      = Some F64.zero.
Proof.
  intros Hc. rewrite dataPoints_fmap. cbn [fst].
  assert (Hfirst : forall (k : nat) (mk : Measurement),
             (m0 :: rest) !! k = Some mk -> timestamp m0 <= timestamp mk).
  { intros k mk Hk.
    apply (chronological_le _ Hc 0%nat k m0 mk); [lia|reflexivity|exact Hk]. }
  split; [|split].
  - intros i m Hi.
    pose proof (Hfirst i m Hi) as H0.
    exists (pointA (timestamp m0) m),
           (Z.min (timestamp m - timestamp m0) time.maxDuration).
    rewrite list_lookup_fmap, Hi.
    cbn [pointA plotter.X]. unfold relativeTime.
    rewrite (Sub_min (timestamp m) (timestamp m0) H0).
    set (d := Z.min (timestamp m - timestamp m0) time.maxDuration).
    assert (Hd : 0 <= d < 2 ^ 63) by (unfold d, time.maxDuration; lia).
    split; [reflexivity|]. split; [reflexivity|]. split; [lia|].
    split; [reflexivity|]. split; [reflexivity|].
    split; [exact (proj1 (Seconds_error d 34 Hd ltac:(lia) ltac:(lia)))|].
    split.
    + intros k Hk Hdk. exact (proj2 (Seconds_error d k Hd Hk Hdk)).
    + exact (proj2 (Seconds_error d 34 Hd ltac:(lia) ltac:(lia))).
  - intros i j pi pj Hij Hi Hj.
    rewrite list_lookup_fmap in Hi, Hj.
    destruct ((m0 :: rest) !! i) as [mi|] eqn:Ei; [|discriminate].
    destruct ((m0 :: rest) !! j) as [mj|] eqn:Ej; [|discriminate].
    injection Hi as <-. injection Hj as <-.
    cbn [pointA plotter.X]. unfold relativeTime.
    pose proof (Hfirst i mi Ei) as H0.
    pose proof (chronological_le _ Hc i j mi mj Hij Ei Ej) as H1.
    pose proof (Sub_mono (timestamp mi) (timestamp mj) (timestamp m0)
                  ltac:(lia)) as H2.
    pose proof (Sub_range (timestamp mj) (timestamp m0)) as H3.
    apply Seconds_mono; [lia|].
    unfold time.maxDuration in H3. lia.
  - cbn. unfold relativeTime.
    rewrite Sub_exact
      by (unfold time.minDuration, time.maxDuration; lia).
    rewrite Z.sub_diag. reflexivity.
Qed.

Lemma C3_witness :
  chronological sample_log
  /\ (exists p : plotter.XY,
        fst (dataPoints 0 sample_log) !! 1%nat = Some p
        /\ plotter.X p = time.Seconds 300000000
        /\ 2 * Z.abs (sval (plotter.X p) * 1000000000
                      - 300000000 * 2 ^ 1074)
           <= 1000000000 * (2 ^ (0 + 1022) + 2 ^ 1021))
  /\ plotter.X <$> (fst (dataPoints 0 sample_log) !! 0%nat) = Some F64.zero.
Proof.
  assert (Hc : chronological sample_log) by (cbn; lia).
  split; [exact Hc|].
  pose proof (C3_relative_times
                (mkMeasurement (0 + 0) 3 10000000)
                (tail sample_log) Hc) as (Hpt & _ & Hzero).
  split; [|exact Hzero].
  destruct (Hpt 1%nat (mkMeasurement (0 + 300000000) 5 12000000) eq_refl)
    as (p & d & Hp & Hd & _ & _ & HX & _ & Hk & _).
  exists p. split; [exact Hp|].
  assert (Ed : d = 300000000) by (rewrite Hd; vm_compute; reflexivity).
  rewrite Ed in HX, Hk.
  split; [exact HX|].
  apply Hk; [lia|vm_compute; reflexivity].
Defined.

(** C8, as stated, fails: a latency of 1.5 ms, which is a float64, is
    plotted as 1. *)
Lemma C8_counterexample :
  exists (m : Measurement) (p : plotter.XY),
    queryDuration m = 1500000 /\
    snd (dataPoints (timestamp m) [m]) !! 0%nat = Some p /\
    plotter.Y p = F64.of_int 1 /\
    latency_ms (queryDuration m) = F64.decimal 15 10 /\
    F64.eqb (plotter.Y p) (latency_ms (queryDuration m)) = false.
Proof.
  exists (mkMeasurement 0 1 1500000). eexists.
  split; [reflexivity|]. split; [reflexivity|].
  split; [reflexivity|]. split; vm_compute; reflexivity.
Qed.

Lemma scenario_relativeTime (t0 c : Z) (n : Z) (d : time.Duration) :
  0 <= c <= 2000000000 ->
  relativeTime t0 (mkMeasurement (t0 + c) n d) = time.Seconds c.
Proof.
  intros Hc. unfold relativeTime. cbn [timestamp].
  rewrite Sub_exact
    by (unfold time.minDuration, time.maxDuration; lia).
  f_equal. lia.
Qed.

(** C8, amended.  At every index, the y-value of series B is the
    Measurement's queryLatency in whole milliseconds (the integer quotient
    by 10^6, toward zero), hence the latency itself when it is a whole
    number of milliseconds.  For Scenario 1, whatever the starting instant,
    the call succeeds, draws two panels of 5 points each, and the x-values
    are 0.0, 0.3, 0.6, 0.9 and 1.2 seconds. *)
Theorem C8_latency_whole_milliseconds :
  (forall (startTime : time.Time) (ms : list Measurement) (i : nat)
          (m : Measurement),
      ms !! i = Some m ->
      plotter.Y <$> (snd (dataPoints startTime ms) !! i)
        = Some (F64.of_int (Z.quot (queryDuration m) 1000000)))
  /\ (forall (startTime : time.Time) (ms : list Measurement) (i : nat)
             (m : Measurement) (k : Z),
        ms !! i = Some m ->
        queryDuration m = k * 1000000 ->
        plotter.Y <$> (snd (dataPoints startTime ms) !! i)
          = Some (F64.of_int k))
  /\ (forall t0 : time.Time,
        exists A B : plotter.XYs,
          dataPoints t0 (scenario_log t0) = (A, B)
          /\ length A = 5%nat /\ length B = 5%nat
          /\ plotter.X <$> A
              = [F64.zero; F64.decimal 3 10; F64.decimal 6 10;
                 F64.decimal 9 10; F64.decimal 12 10]
          /\ plotter.X <$> B = plotter.X <$> A
          /\ plotter.Y <$> B
              = [F64.of_int 10; F64.of_int 12; F64.of_int 9;
                 F64.of_int 15; F64.of_int 11]
          /\ generateChart quiet_env (mkWorld (scenario_log t0) [])
              = (None,
                 mkWorld (scenario_log t0)
                   [EvDraw 0 0 (connectionsPlot A) tiles img;
                    EvDraw 1 0 (durationPlot B) tiles img;
                    EvCreate (filename quiet_env);
                    EvWrite (filename quiet_env) img;
                    EvLog ("Chart saved as " +:+ filename quiet_env);
                    EvClose (filename quiet_env)])).
Proof.
  split; [|split].
  - intros startTime ms i m Hi.
    rewrite dataPoints_fmap. cbn [snd].
    rewrite list_lookup_fmap, Hi. reflexivity.
  - intros startTime ms i m k Hi Hk.
    rewrite dataPoints_fmap. cbn [snd].
    rewrite list_lookup_fmap, Hi. cbn.
    unfold time.Milliseconds. rewrite Hk, Z.quot_mul by lia. reflexivity.
  - intros t0.
    assert (HD : dataPoints t0 (scenario_log t0) =
              (pointA t0 <$> scenario_log t0, pointB t0 <$> scenario_log t0))
      by apply dataPoints_fmap.
    assert (HA : plotter.X <$> (pointA t0 <$> scenario_log t0)
              = [F64.zero; F64.decimal 3 10; F64.decimal 6 10;
                 F64.decimal 9 10; F64.decimal 12 10]).
    { unfold scenario_log. cbn [fmap list_fmap pointA plotter.X].
      rewrite !scenario_relativeTime by lia.
      vm_compute. reflexivity. }
    eexists _, _. split; [exact HD|].
    split; [reflexivity|]. split; [reflexivity|].
    split; [exact HA|]. split.
    { rewrite <- !list_fmap_compose. reflexivity. }
    split.
    { vm_compute. reflexivity. }
    unfold generateChart. cbn [measurements scenario_log timestamp].
    replace (t0 + 0) with t0 by lia.
    fold (scenario_log t0).
    change [mkMeasurement t0 3 10000000;
            mkMeasurement (t0 + 300000000) 5 12000000;
            mkMeasurement (t0 + 600000000) 5 9000000;
            mkMeasurement (t0 + 900000000) 2 15000000;
            mkMeasurement (t0 + 1200000000) 4 11000000]
      with (mkMeasurement t0 3 10000000 :: tail (scenario_log t0)).
    replace (mkMeasurement t0 3 10000000 :: tail (scenario_log t0))
      with (scenario_log t0)
      by (unfold scenario_log; cbn [tail]; repeat f_equal; lia).
    rewrite HD. reflexivity.
Qed.

Lemma C8_witness :
  plotter.Y <$> (snd (dataPoints 0 sample_log) !! 1%nat)
    = Some (F64.of_int 12).
Proof.
  exact (proj1 (proj2 C8_latency_whole_milliseconds) 0 sample_log 1%nat
           (mkMeasurement (0 + 300000000) 5 12000000) 12 eq_refl eq_refl).
Defined.

(* ===================================================================== *)
(** ** More on generateChart: outcomes, the file, the panels              *)
(* ===================================================================== *)

Lemma new_events_emit (evs : list event) (w : World) :
  new_events w (emit evs w) = evs.
Proof.
  unfold new_events, emit. cbn [output]. apply drop_app_length.
Qed.

Lemma emit_emit (evs1 evs2 : list event) (w : World) :
  emit evs2 (emit evs1 w) = emit (evs1 ++ evs2) w.
Proof. unfold emit. cbn [measurements output]. now rewrite app_assoc. Qed.

Lemma emit_nil (w : World) : emit [] w = w.
Proof. destruct w. unfold emit. cbn. now rewrite app_nil_r. Qed.

(** The six ways through [generateChart]. *)
Lemma generateChart_cases (env : RenderEnv) (w : World) :
  (measurements w = [] /\
   generateChart env w = (Some "no measurements to plot", emit [] w))
  \/ (exists err,
        measurements w <> [] /\
        NewLinePoints_err env (fst (chartSeries (measurements w))) = Some err /\
        generateChart env w = (Some err, emit [] w))
  \/ (exists err,
        measurements w <> [] /\
        NewLinePoints_err env (fst (chartSeries (measurements w))) = None /\
        NewLinePoints_err env (snd (chartSeries (measurements w))) = Some err /\
        generateChart env w = (Some err, emit [] w))
  \/ (exists err,
        measurements w <> [] /\
        NewLinePoints_err env (fst (chartSeries (measurements w))) = None /\
        NewLinePoints_err env (snd (chartSeries (measurements w))) = None /\
        Create_err env = Some err /\
        generateChart env w =
          (Some ("error creating file: " +:+ err),
           emit [EvDraw 0 0 (connectionsPlot (fst (chartSeries (measurements w))))
                   tiles img;
                 EvDraw 1 0 (durationPlot (snd (chartSeries (measurements w))))
                   tiles img] w))
  \/ (exists err,
        measurements w <> [] /\
        NewLinePoints_err env (fst (chartSeries (measurements w))) = None /\
        NewLinePoints_err env (snd (chartSeries (measurements w))) = None /\
        Create_err env = None /\ WriteTo_err env = Some err /\
        generateChart env w =
          (Some ("error writing PNG: " +:+ err),
           emit [EvDraw 0 0 (connectionsPlot (fst (chartSeries (measurements w))))
                   tiles img;
                 EvDraw 1 0 (durationPlot (snd (chartSeries (measurements w))))
                   tiles img;
                 EvCreate (filename env);
                 EvClose (filename env)] w))
  \/ (measurements w <> [] /\
      NewLinePoints_err env (fst (chartSeries (measurements w))) = None /\
      NewLinePoints_err env (snd (chartSeries (measurements w))) = None /\
      Create_err env = None /\ WriteTo_err env = None /\
      generateChart env w =
        (None,
         emit [EvDraw 0 0 (connectionsPlot (fst (chartSeries (measurements w))))
                 tiles img;
               EvDraw 1 0 (durationPlot (snd (chartSeries (measurements w))))
                 tiles img;
               EvCreate (filename env);
               EvWrite (filename env) img;
               EvLog ("Chart saved as " +:+ filename env);
               EvClose (filename env)] w)).
Proof.
  unfold generateChart.
  destruct (measurements w) as [|m0 rest] eqn:Hms.
  { left. rewrite emit_nil. auto. }
  right. cbn [chartSeries].
  destruct (dataPoints (timestamp m0) (m0 :: rest)) as [cp dp]. cbn [fst snd].
  destruct (NewLinePoints_err env cp) as [e|] eqn:HA.
  { left. exists e. rewrite emit_nil. auto. }
  right. destruct (NewLinePoints_err env dp) as [e|] eqn:HB.
  { left. exists e. rewrite emit_nil. auto. }
  right. destruct (Create_err env) as [e|] eqn:HC.
  { left. exists e. auto 10. }
  right. destruct (WriteTo_err env) as [e|] eqn:HW.
  { left. exists e. rewrite !emit_emit. cbn [app]. auto 10. }
  right. rewrite !emit_emit. cbn [app]. auto 10.
Qed.

Ltac not_in_list H :=
  repeat (apply elem_of_cons in H as [H|H]; [discriminate H|]);
  apply elem_of_nil in H; contradiction.

(** X1.  [generateChart] returns nil exactly when all five stages pass, and this
    is exactly when the image is written and exactly when "Chart saved" is
    logged: no success message without a written file, and none missing. *)
Theorem generateChart_success_iff (env : RenderEnv) (w : World) :
  (fst (generateChart env w) = None <->
     measurements w <> [] /\
     NewLinePoints_err env (fst (chartSeries (measurements w))) = None /\
     NewLinePoints_err env (snd (chartSeries (measurements w))) = None /\
     Create_err env = None /\ WriteTo_err env = None)
  /\ (fst (generateChart env w) = None <->
        EvWrite (filename env) img
          ∈ new_events w (snd (generateChart env w)))
  /\ (fst (generateChart env w) = None <->
        EvLog ("Chart saved as " +:+ filename env)
          ∈ new_events w (snd (generateChart env w))).
Proof.
  destruct (generateChart_cases env w)
    as [(H0 & ->)|[(e & H0 & HA & ->)|[(e & H0 & HA & HB & ->)
       |[(e & H0 & HA & HB & HC & ->)|[(e & H0 & HA & HB & HC & HW & ->)
       |(H0 & HA & HB & HC & HW & ->)]]]]];
    cbn [fst snd]; rewrite new_events_emit.
  all: repeat split; try discriminate; try tauto; try congruence.
  all: try (intros Hin; exfalso; not_in_list Hin).
  all: try (intros (? & ? & ? & ? & ?); congruence).
  all: intros _; repeat constructor.
Qed.

(** X2.  The file protocol: a call creates at most one file, named
    "clickhouse-metrics-<time>.png", writes only to that file while it is
    open, and always closes it; the file exists (closed) exactly when file
    creation was reached and succeeded, also when the write then failed. *)
Theorem generateChart_file_protocol (env : RenderEnv) (w : World) :
  file_protocol (new_events w (snd (generateChart env w)))
    = (if decide (measurements w <> [] /\
                  NewLinePoints_err env (fst (chartSeries (measurements w))) = None /\
                  NewLinePoints_err env (snd (chartSeries (measurements w))) = None /\
                  Create_err env = None)
       then Some (FileClosed ("clickhouse-metrics-" +:+ now_formatted env +:+ ".png"))
       else Some NoFile).
Proof.
  destruct (generateChart_cases env w)
    as [(H0 & ->)|[(e & H0 & HA & ->)|[(e & H0 & HA & HB & ->)
       |[(e & H0 & HA & HB & HC & ->)|[(e & H0 & HA & HB & HC & HW & ->)
       |(H0 & HA & HB & HC & HW & ->)]]]]];
    cbn [snd]; rewrite new_events_emit;
    unfold file_protocol; cbn [foldl file_step];
    rewrite ?String.eqb_refl; cbn [file_step];
    rewrite ?String.eqb_refl;
    case_decide as Hd; try reflexivity; exfalso;
    try (destruct Hd as (? & ? & ? & ?); congruence);
    apply Hd; auto.
Qed.

Lemma chartSeries_length (ms : list Measurement) :
  length (fst (chartSeries ms)) = length ms /\
  length (snd (chartSeries ms)) = length ms.
Proof.
  destruct ms as [|m0 rest]; [split; reflexivity|].
  cbn [chartSeries]. rewrite dataPoints_fmap. cbn [fst snd].
  rewrite !length_fmap. split; reflexivity.
Qed.

(** X3.  Drawing is all or nothing.  A call either adds no event at all (the log
    is empty or a series is rejected), or it first draws exactly two panels
    on the same canvas and tiling, connections on tile (0,0) and then
    durations on tile (1,0), each a line and a scatter over the same points,
    one per Measurement, and a grid; it draws nothing after them. *)
Theorem generateChart_draws_both_or_nothing (env : RenderEnv) (w : World) :
  (new_events w (snd (generateChart env w)) = [] /\
   exists err, fst (generateChart env w) = Some err)
  \/ (exists (A B : plotter.XYs) (rest : list event),
        new_events w (snd (generateChart env w))
          = EvDraw 0 0 (connectionsPlot A) tiles img
            :: EvDraw 1 0 (durationPlot B) tiles img :: rest
        /\ filter (fun ev => is_draw ev = true) rest = []
        /\ plot.plotters (connectionsPlot A)
           = [plotter.Line A; plotter.Scatter A; plotter.Grid]
        /\ plot.plotters (durationPlot B)
           = [plotter.Line B; plotter.Scatter B; plotter.Grid]
        /\ length A = length (measurements w)
        /\ length B = length (measurements w)
        /\ plot.XLabel (connectionsPlot A) = plot.XLabel (durationPlot B)).
Proof.
  pose proof (chartSeries_length (measurements w)) as [HlA HlB].
  destruct (generateChart_cases env w)
    as [(H0 & ->)|[(e & H0 & HA & ->)|[(e & H0 & HA & HB & ->)
       |[(e & H0 & HA & HB & HC & ->)|[(e & H0 & HA & HB & HC & HW & ->)
       |(H0 & HA & HB & HC & HW & ->)]]]]];
    cbn [fst snd]; rewrite new_events_emit.
  1-3: left; split; [reflexivity|eexists; reflexivity].
  all: right; eexists _, _, _; split; [reflexivity|];
    repeat split; try reflexivity; assumption.
Qed.

(* ===================================================================== *)
(** ** More on main: program order, stopping, whole sessions, the exit    *)
(* ===================================================================== *)

Module MachineMore.
Import Machine.

Lemma step_main_kind (s s' : State) (l : label) :
  step s l = Some s' ->
  match main_kind l with
  | Some k => pc_index (mainPC s) = k /\ pc_index (mainPC s') = S k
  | None => mainPC s' = mainPC s
  end.
Proof.
  unfold step.
  destruct l, (mainPC s) eqn:Em, (samplerPC s) eqn:Es; try discriminate;
    cbn [main_kind];
    try (intros [= <-]; cbn; auto; fail).
  all: try (destruct (collectMetrics tk) as [m0 evs]; intros [= <-]; cbn; auto; fail).
  all: destruct (generateChart env _) as [err w']; intros [= <-]; cbn; auto.
Qed.

Lemma run_main_kind (ls : list label) :
  forall s s' : State,
    run s ls = Some s' ->
    (pc_index (mainPC s) <= pc_index (mainPC s'))%nat /\
    omap main_kind ls
      = seq (pc_index (mainPC s))
          (pc_index (mainPC s') - pc_index (mainPC s)).
Proof.
  induction ls as [|l ls IH]; intros s s' Hrun; cbn [run] in Hrun.
  - injection Hrun as <-. rewrite Nat.sub_diag. auto.
  - destruct (step s l) as [s1|] eqn:Hstep; [|discriminate].
    destruct (IH _ _ Hrun) as [Hle Hseq].
    pose proof (step_main_kind _ _ _ Hstep) as Hk.
    change (omap main_kind (l :: ls))
      with (match main_kind l with
            | Some k => k :: omap main_kind ls
            | None => omap main_kind ls
            end).
    clear IH. destruct (main_kind l) as [k|].
    + destruct Hk as [Hk Hk1]. rewrite Hseq, Hk1. rewrite Hk1 in Hle.
      subst k. split; [lia|].
      replace (pc_index (mainPC s') - pc_index (mainPC s))%nat
        with (S (pc_index (mainPC s') - S (pc_index (mainPC s)))) by lia.
      reflexivity.
    + rewrite Hk in *. auto.
Qed.
End MachineMore.

(** X6.  The control thread takes its steps in program order, each at most once:
    in every execution of [main] the steps of the control thread are a prefix
    of signal, send, handshake, render.  So [generateChart] runs at most
    once, and never before the handshake. *)
Theorem main_steps_in_program_order
    (ls : list Machine.label) (s : Machine.State) :
  Machine.run Machine.init ls = Some s ->
  omap main_kind ls = seq 0 (pc_index (Machine.mainPC s))
  /\ (forall (pre post : list Machine.label) (env : RenderEnv),
        ls = pre ++ Machine.LRender env :: post ->
        omap main_kind pre = [0; 1; 2]%nat /\ omap main_kind post = []).
Proof.
  intros Hrun.
  destruct (MachineMore.run_main_kind ls _ _ Hrun) as [_ Hseq].
  cbn [Machine.init Machine.mainPC pc_index] in Hseq.
  rewrite Nat.sub_0_r in Hseq. split; [exact Hseq|].
  intros pre post env ->.
  rewrite omap_app in Hseq. cbn [omap main_kind] in Hseq.
  assert (Hlen : (length (omap main_kind pre) + S (length (omap main_kind post))
                  = pc_index (Machine.mainPC s))%nat).
  { apply (f_equal length) in Hseq.
    rewrite length_app, length_seq in Hseq. cbn [length] in Hseq. exact Hseq. }
  assert (Hpc : (pc_index (Machine.mainPC s) <= 4)%nat)
    by (destruct (Machine.mainPC s); cbn; lia).
  destruct (pc_index (Machine.mainPC s)) as [|[|[|[|[|n]]]]] eqn:E; try lia;
    cbn [seq] in Hseq;
    destruct (omap main_kind pre) as [|a [|b [|c [|d pre']]]];
    cbn in Hseq, Hlen; try lia; try congruence.
  injection Hseq as -> -> -> Hpost. auto.
Qed.

Module MachineMore2.
Import Machine.

(** A step only appends: to the log, at most the pending Measurement; to
    the output, the events of the step. *)
Lemma step_grows (s s' : State) (l : label) :
  step s l = Some s' ->
  measurements (world s) `prefix_of` measurements (world s') /\
  output (world s) `prefix_of` output (world s').
Proof.
  unfold step.
  destruct l, (mainPC s), (samplerPC s); try discriminate;
    try (intros [= <-]; cbn; split; (reflexivity || apply prefix_app_r; reflexivity)).
  all: try (destruct (collectMetrics tk) as [m0 evs]; intros [= <-]; cbn;
            split; [reflexivity|apply prefix_app_r; reflexivity]).
  all: destruct (generateChart env _) as [err w'] eqn:Hgc; intros [= <-];
    destruct (generateChart_emits env
                (emit [EvLog "Stopping monitoring and generating chart..."]
                   (world s))) as (evs & Hw & _);
    rewrite Hgc in Hw; cbn [snd] in Hw; subst w';
    destruct err; cbn; split; try reflexivity;
    rewrite <- ?app_assoc; apply prefix_app_r; reflexivity.
Qed.

Lemma run_grows (ls : list label) :
  forall s s' : State,
    run s ls = Some s' ->
    measurements (world s) `prefix_of` measurements (world s') /\
    output (world s) `prefix_of` output (world s').
Proof.
  induction ls as [|l ls IH]; intros s s' Hrun; cbn [run] in Hrun.
  - injection Hrun as <-. split; reflexivity.
  - destruct (step s l) as [s1|] eqn:Hstep; [|discriminate].
    destruct (step_grows _ _ _ Hstep) as [H1 H2].
    destruct (IH _ _ Hrun) as [H3 H4].
    split; etransitivity; eassumption.
Qed.

(** While the control thread is blocked in its send, and after, no tick
    starts. *)
Lemma step_stopping (s s' : State) (l : label) :
  mainPC s = MBlocked \/ samplerPC s = SReturned ->
  step s l = Some s' ->
  (mainPC s' = MBlocked \/ samplerPC s' = SReturned) /\ is_collect l = None.
Proof.
  intros [Hm|Hs] Hstep.
  - unfold step in Hstep. rewrite Hm in Hstep.
    destruct l, (samplerPC s); try discriminate; injection Hstep as <-;
      cbn; auto.
  - destruct (MachineFacts.step_after_return _ _ _ Hs Hstep) as (H1 & _ & _ & H2).
    auto.
Qed.

Lemma run_stopping (ls : list label) :
  forall s s' : State,
    mainPC s = MBlocked \/ samplerPC s = SReturned ->
    run s ls = Some s' -> ticks_of ls = [].
Proof.
  induction ls as [|l ls IH]; intros s s' Hinv Hrun; cbn [run] in Hrun.
  - reflexivity.
  - destruct (step s l) as [s1|] eqn:Hstep; [|discriminate].
    destruct (step_stopping _ _ _ Hinv Hstep) as [Hinv1 Hc].
    unfold ticks_of in *.
    change (omap is_collect (l :: ls))
      with (match is_collect l with
            | Some tk => tk :: omap is_collect ls
            | None => omap is_collect ls
            end).
    rewrite Hc. exact (IH _ _ Hinv1 Hrun).
Qed.

End MachineMore2.

(** X7.  The Measurement Log and the output are append-only: in every execution
    from any state, the log (and the output) at an earlier moment is a prefix
    of the log (and the output) at a later one.  Nothing recorded is ever
    changed or removed, neither by the goroutine nor by the renderer. *)
Theorem log_is_append_only
    (ls : list Machine.label) (s s' : Machine.State) :
  Machine.run s ls = Some s' ->
  measurements (Machine.world s) `prefix_of` measurements (Machine.world s')
  /\ output (Machine.world s) `prefix_of` output (Machine.world s').
Proof. apply MachineMore2.run_grows. Qed.

(** X8.  Prompt, lossless stop: once the control thread is blocked in its send
    on [done], no new tick starts; the only Measurement that can still be
    appended is the one in flight, so the log grows by at most one entry and
    the in-flight sample is not dropped. *)
Theorem stop_admits_only_inflight_sample
    (ls : list Machine.label) (s s' : Machine.State) :
  Machine.mainPC s = Machine.MBlocked ->
  Machine.run s ls = Some s' ->
  Machine.ticks_of ls = []
  /\ measurements (Machine.world s') ++ Machine.pending s'
     = measurements (Machine.world s) ++ Machine.pending s
  /\ (length (measurements (Machine.world s'))
      <= length (measurements (Machine.world s)) + 1)%nat
  /\ (Machine.handshake_done s' = true ->
      measurements (Machine.world s')
      = measurements (Machine.world s) ++ Machine.pending s).
Proof.
  intros Hm Hrun.
  pose proof (MachineMore2.run_stopping ls _ _ (or_introl Hm) Hrun) as Htk.
  pose proof (MachineFacts.run_log ls _ _ Hrun) as Hlog.
  rewrite Htk in Hlog. cbn in Hlog. rewrite app_nil_r in Hlog.
  split; [exact Htk|]. split; [exact Hlog|]. split.
  - apply (f_equal length) in Hlog. rewrite !length_app in Hlog.
    assert (length (Machine.pending s) <= 1)%nat
      by (unfold Machine.pending; destruct (Machine.samplerPC s); cbn; lia).
    lia.
  - intros Hdone.
    assert (Hp : Machine.pending s' = []).
    { destruct (MachineMore.run_main_kind ls _ _ Hrun) as [Hle _].
      (* after the handshake the goroutine has returned *)
      clear Hlog Htk.
      revert s Hm Hrun Hle. induction ls as [|l ls IH]; intros s Hm Hrun Hle.
      - cbn in Hrun. injection Hrun as <-.
        unfold Machine.handshake_done in Hdone. rewrite Hm in Hdone.
        discriminate.
      - cbn [Machine.run] in Hrun.
        destruct (Machine.step s l) as [s1|] eqn:Hstep; [|discriminate].
        destruct (Machine.mainPC s1) eqn:Em1.
        + pose proof (MachineMore.step_main_kind _ _ _ Hstep) as Hk.
          destruct (main_kind l); [destruct Hk as [_ Hk]|];
            rewrite ?Em1, ?Hm in Hk; cbn in Hk; congruence.
        + pose proof (MachineMore.step_main_kind _ _ _ Hstep) as Hk.
          destruct (main_kind l); [destruct Hk as [Hk0 Hk]|];
            rewrite ?Em1, ?Hm in *; cbn in *; try congruence; lia.
        + apply (IH s1 Em1 Hrun).
          destruct (MachineMore.run_main_kind ls _ _ Hrun); assumption.
        + assert (Hs1 : Machine.samplerPC s1 = Machine.SReturned).
          { unfold Machine.step in Hstep. rewrite Hm in Hstep.
            destruct l, (Machine.samplerPC s); try discriminate;
              injection Hstep as <-; cbn in Em1; try discriminate; reflexivity. }
          destruct (MachineFacts.run_after_return ls _ _ Hs1 Hrun) as (Hs' & _).
          unfold Machine.pending. rewrite Hs'. reflexivity.
        + unfold Machine.step in Hstep. rewrite Hm in Hstep.
          destruct l, (Machine.samplerPC s); try discriminate;
            injection Hstep as <-; cbn in Em1; discriminate. }
    rewrite Hp, app_nil_r in Hlog. exact Hlog.
Qed.

Lemma measure_timestamp (tk : Tick) :
  timestamp (Machine.measure tk) = tick_start tk.
Proof.
  unfold Machine.measure, collectMetrics.
  destruct (tick_result tk); reflexivity.
Qed.

Lemma chronological_measure (tks : list Tick) :
  clock_nondecreasing tks -> chronological (Machine.measure <$> tks).
Proof.
  induction tks as [|t1 tks IH]; [intros; exact I|].
  destruct tks as [|t2 tks]; [intros; exact I|].
  intros [H12 Hc]. specialize (IH Hc).
  change (timestamp (Machine.measure t1) <= timestamp (Machine.measure t2)
          /\ chronological (Machine.measure <$> t2 :: tks)).
  rewrite !measure_timestamp. auto.
Qed.

Lemma chronological_app_l (l1 l2 : list Measurement) :
  chronological (l1 ++ l2) -> chronological l1.
Proof.
  induction l1 as [|m1 l1 IH]; [intros; exact I|].
  destruct l1 as [|m2 l1]; [intros; exact I|].
  intros [H12 Hc]. split; [exact H12|]. exact (IH Hc).
Qed.

(** X9.  The Measurement Log invariant holds in every execution: when the clock
    readings taken by the ticks never go back, the log is in chronological
    order at every moment, under every interleaving. *)
Theorem log_stays_chronological
    (ls : list Machine.label) (s : Machine.State) :
  Machine.run Machine.init ls = Some s ->
  clock_nondecreasing (Machine.ticks_of ls) ->
  chronological (measurements (Machine.world s)).
Proof.
  intros Hrun Hclock.
  pose proof (MachineFacts.run_log ls _ _ Hrun) as Hlog.
  cbn in Hlog.
  apply (chronological_app_l _ (Machine.pending s)).
  rewrite Hlog. apply chronological_measure. exact Hclock.
Qed.

Lemma generateChart_quiet (env : RenderEnv) (w : World) :
  measurements w <> [] ->
  (forall xys, NewLinePoints_err env xys = None) ->
  Create_err env = None -> WriteTo_err env = None ->
  generateChart env w =
    (None,
     emit [EvDraw 0 0 (connectionsPlot (fst (chartSeries (measurements w))))
             tiles img;
           EvDraw 1 0 (durationPlot (snd (chartSeries (measurements w))))
             tiles img;
           EvCreate (filename env);
           EvWrite (filename env) img;
           EvLog ("Chart saved as " +:+ filename env);
           EvClose (filename env)] w).
Proof.
  intros Hne HN HC HW.
  destruct (generateChart_cases env w)
    as [(H0 & _)|[(e & H0 & HA & _)|[(e & H0 & HA & HB & _)
       |[(e & H0 & HA & HB & HC' & _)|[(e & H0 & HA & HB & HC' & HW' & _)
       |(H0 & HA & HB & HC' & HW' & Hgc)]]]]];
    rewrite ?HN in *; congruence.
Qed.

(** X10.  A whole session.  After any k >= 1 ticks, failed or not, a stop request
    followed by the handshake and a rendering that meets no failure ends
    [main] successfully: the log holds the k Measurements, and the output
    ends with the stop message, two panels of k points each, and one file
    created, written, announced and closed. *)
Theorem session_renders_every_tick (tks : list Tick) (env : RenderEnv) :
  tks <> [] ->
  (forall xys, NewLinePoints_err env xys = None) ->
  Create_err env = None -> WriteTo_err env = None ->
  exists (s : Machine.State) (out : list event) (A B : plotter.XYs),
    Machine.run Machine.init
      ((tks ≫= Machine.tick_labels)
       ++ [Machine.LSignal; Machine.LSendBlock; Machine.LHandshake;
           Machine.LRender env]) = Some s
    /\ Machine.mainPC s = Machine.MDone None
    /\ Machine.samplerPC s = Machine.SReturned
    /\ measurements (Machine.world s) = Machine.measure <$> tks
    /\ length A = length tks /\ length B = length tks
    /\ output (Machine.world s)
       = out ++ [EvLog "Stopping monitoring and generating chart...";
                 EvDraw 0 0 (connectionsPlot A) tiles img;
                 EvDraw 1 0 (durationPlot B) tiles img;
                 EvCreate (filename env);
                 EvWrite (filename env) img;
                 EvLog ("Chart saved as " +:+ filename env);
                 EvClose (filename env)].
Proof.
  intros Hne HN HC HW.
  destruct (MachineFacts.run_ticks tks Machine.init eq_refl ltac:(discriminate))
    as (s1 & Hrun & Hs1 & Hm1 & Hlog).
  cbn in Hlog, Hm1.
  destruct s1 as [mpc spc w1]. cbn in Hs1, Hm1, Hlog. subst mpc spc.
  assert (Hw1 : measurements
                  (emit [EvLog "Stopping monitoring and generating chart..."] w1)
                <> []).
  { cbn. rewrite Hlog. destruct tks; [congruence|discriminate]. }
  pose proof (generateChart_quiet env _ Hw1 HN HC HW) as Hgc.
  pose proof (chartSeries_length
                (measurements
                   (emit [EvLog "Stopping monitoring and generating chart..."]
                      w1))) as [HlA HlB].
  eexists _, (output w1), _, _.
  rewrite MachineFacts.run_app, Hrun.
  cbn [Machine.run Machine.step Machine.mainPC Machine.samplerPC Machine.world].
  rewrite Hgc. cbn [Machine.mainPC Machine.samplerPC Machine.world].
  split; [reflexivity|]. split; [reflexivity|]. split; [reflexivity|].
  split; [exact Hlog|].
  cbn [emit measurements output] in *. rewrite Hlog, length_fmap in HlA, HlB.
  split; [exact HlA|]. split; [exact HlB|].
  unfold emit. cbn [Machine.world output measurements].
  rewrite Hlog, <- app_assoc. reflexivity.
Qed.

Module MachineMore3.
Import Machine.

Lemma step_quiet (s s1 : State) (l : label) :
  step s l = Some s1 ->
  is_collect l = None -> pending s = [] ->
  (pc_index (mainPC s1) <= 3)%nat ->
  world s1 = world s /\ pending s1 = [].
Proof.
  unfold step, pending.
  destruct l, (mainPC s), (samplerPC s); try discriminate;
    cbn [is_collect]; try discriminate;
    try (intros [= <-]; cbn; auto; fail).
  all: destruct (generateChart env _) as [err w']; intros [= <-]; cbn; lia.
Qed.

Lemma run_quiet (ls : list label) :
  forall s s' : State,
    run s ls = Some s' ->
    ticks_of ls = [] -> pending s = [] ->
    (pc_index (mainPC s') <= 3)%nat ->
    world s' = world s /\ pending s' = [].
Proof.
  induction ls as [|l ls IH]; intros s s' Hrun Htk Hp Hpc; cbn [run] in Hrun.
  - injection Hrun as <-. auto.
  - destruct (step s l) as [s1|] eqn:Hstep; [|discriminate].
    unfold ticks_of in Htk.
    change (omap is_collect (l :: ls))
      with (match is_collect l with
            | Some tk => tk :: omap is_collect ls
            | None => omap is_collect ls
            end) in Htk.
    destruct (is_collect l) eqn:Hc; [discriminate|].
    destruct (MachineMore.run_main_kind ls _ _ Hrun) as [Hle _].
    destruct (step_quiet _ _ _ Hstep Hc Hp ltac:(lia)) as [Hw1 Hp1].
    destruct (IH _ _ Hrun Htk Hp1 Hpc) as [Hw Hp'].
    split; [congruence|exact Hp'].
Qed.

End MachineMore3.

(** X11.  A stop before the first sample.  If the handshake comes before any tick
    was taken, the renderer finds the log empty: [main] logs the stop
    message and then the fatal error "no measurements to plot" and nothing
    else; nothing is drawn and no file is created; it exits with status 1. *)
Theorem stop_before_first_sample
    (pre : list Machine.label) (env : RenderEnv) (s : Machine.State) :
  Machine.run Machine.init
    (pre ++ [Machine.LHandshake; Machine.LRender env]) = Some s ->
  Machine.ticks_of pre = [] ->
  Machine.mainPC s = Machine.MDone (Some "no measurements to plot")
  /\ measurements (Machine.world s) = []
  /\ output (Machine.world s)
     = [EvLog "Starting monitoring. Press Ctrl+C to stop and generate the chart...";
        EvLog "Stopping monitoring and generating chart...";
        EvFatal "no measurements to plot"]
  /\ main_exit s = Some (false, 1).
Proof.
  intros Hrun Htk.
  rewrite MachineFacts.run_app in Hrun.
  destruct (Machine.run Machine.init pre) as [s0|] eqn:Hpre; [|discriminate].
  cbn [Machine.run] in Hrun.
  destruct (Machine.step s0 Machine.LHandshake) as [s1|] eqn:Hh; [|discriminate].
  destruct (MachineFacts.step_handshake _ _ Hh) as (Hm0 & Hs0 & ->).
  destruct (MachineMore3.run_quiet pre _ _ Hpre Htk eq_refl
              ltac:(rewrite Hm0; cbn; lia)) as [Hw _].
  cbn [Machine.step Machine.mainPC Machine.samplerPC Machine.world] in Hrun.
  rewrite Hw in Hrun. cbn in Hrun. injection Hrun as <-.
  repeat split.
Qed.


Module MachineMore4.
Import Machine.

Lemma collectMetrics_not_fatal (tk : Tick) :
  Forall (fun ev => is_fatal ev = false) (snd (collectMetrics tk)).
Proof.
  unfold collectMetrics. destruct (tick_result tk); repeat constructor.
Qed.

Lemma render_final (env : RenderEnv) (w : World) (r : option string)
    (w' : World) :
  Forall (fun ev => is_fatal ev = false) (output w) ->
  generateChart env w = (r, w') ->
  final_output r
    (output match r with
            | Some e => emit [EvFatal e] w'
            | None => w'
            end).
Proof.
  intros Hout Hgc.
  destruct (generateChart_cases env w)
    as [(H0 & E)|[(e & H0 & HA & E)|[(e & H0 & HA & HB & E)
       |[(e & H0 & HA & HB & HC & E)|[(e & H0 & HA & HB & HC & HW & E)
       |(H0 & HA & HB & HC & HW & E)]]]]];
    rewrite E in Hgc; injection Hgc as <- <-; cbn [final_output emit output].
  1-5: eexists; split; [reflexivity|];
    apply Forall_app; split; [exact Hout|repeat constructor].
  split.
  - apply Forall_app; split; [exact Hout|repeat constructor].
  - exists (filename env).
    change [EvDraw 0 0 (connectionsPlot (chartSeries (measurements w)).1) tiles img;
            EvDraw 1 0 (durationPlot (chartSeries (measurements w)).2) tiles img;
            EvCreate (filename env); EvWrite (filename env) img;
            EvLog ("Chart saved as " +:+ filename env); EvClose (filename env)]
      with ([EvDraw 0 0 (connectionsPlot (chartSeries (measurements w)).1) tiles img;
            EvDraw 1 0 (durationPlot (chartSeries (measurements w)).2) tiles img;
            EvCreate (filename env); EvWrite (filename env) img;
            EvLog ("Chart saved as " +:+ filename env)] ++ [EvClose (filename env)]).
    rewrite app_assoc. apply last_snoc.
Qed.

Lemma step_exit_invariant (s s' : State) (l : label) :
  exit_invariant s -> step s l = Some s' -> exit_invariant s'.
Proof.
  intros [Hret Hout]. unfold step, exit_invariant, handshake_done in *.
  destruct l, (mainPC s) eqn:Em, (samplerPC s) eqn:Es; try discriminate;
    try (intros [= <-]; cbn; split; [auto; discriminate|exact Hout]; fail);
    try (specialize (Hret eq_refl); discriminate).
  all: try (destruct (collectMetrics tk) as [m0 evs] eqn:Hc; intros [= <-];
            cbn; split; [discriminate|];
            apply Forall_app; split; [exact Hout|];
            pose proof (collectMetrics_not_fatal tk) as Hnf;
            rewrite Hc in Hnf; exact Hnf).
  all: destruct (generateChart env _) as [r w'] eqn:Hgc; intros [= <-]; cbn;
    (split; [auto|]);
    assert (Hout' : Forall (fun ev => is_fatal ev = false)
              (output (emit [EvLog "Stopping monitoring and generating chart..."]
                         (world s))))
      by (cbn; apply Forall_app; split; [exact Hout|repeat constructor]);
    exact (render_final env _ r w' Hout' Hgc).
Qed.

Lemma run_exit_invariant (ls : list label) :
  forall s s' : State,
    exit_invariant s -> run s ls = Some s' -> exit_invariant s'.
Proof.
  induction ls as [|l ls IH]; intros s s' Hinv Hrun; cbn [run] in Hrun.
  - injection Hrun as <-. exact Hinv.
  - destruct (step s l) as [s1|] eqn:Hstep; [|discriminate].
    exact (IH _ _ (step_exit_invariant _ _ _ Hinv Hstep) Hrun).
Qed.

Lemma exit_invariant_init : exit_invariant init.
Proof. split; [discriminate|repeat constructor]. Qed.

End MachineMore4.

(** X12.  How [main] ends.  In every execution, once [generateChart] has
    returned: if it returned an error, that error is logged fatally as the
    very last output, it is the only fatal message, and [main] exits with
    status 1 without closing the connection (the deferred [conn.Close()] does
    not run under [log.Fatal]); if it returned nil, no fatal message was ever
    logged, the last output is the closing of the chart file, and [main]
    returns with status 0 after closing the connection.  In both cases the
    goroutine has returned. *)
Theorem main_exits_fatally_iff_render_fails
    (ls : list Machine.label) (s : Machine.State) (r : option string) :
  Machine.run Machine.init ls = Some s ->
  Machine.mainPC s = Machine.MDone r ->
  Machine.samplerPC s = Machine.SReturned
  /\ match r with
     | Some e =>
         last (output (Machine.world s)) = Some (EvFatal e)
         /\ filter (fun ev => is_fatal ev = true) (output (Machine.world s))
            = [EvFatal e]
         /\ main_exit s = Some (false, 1)
     | None =>
         filter (fun ev => is_fatal ev = true) (output (Machine.world s)) = []
         /\ (exists f, last (output (Machine.world s)) = Some (EvClose f))
         /\ main_exit s = Some (true, 0)
     end.
Proof.
  intros Hrun Hpc.
  destruct (MachineMore4.run_exit_invariant ls _ _
              MachineMore4.exit_invariant_init Hrun) as [Hret Hout].
  unfold Machine.handshake_done, main_exit in *. rewrite Hpc in *.
  split; [auto|].
  assert (Hfilter : forall l : list event,
             Forall (fun ev => is_fatal ev = false) l ->
             filter (fun ev => is_fatal ev = true) l = []).
  { intros l Hl. induction Hl as [|ev l Hev Hl IH]; [reflexivity|].
    rewrite filter_cons_False by congruence. exact IH. }
  destruct r as [e|]; cbn [final_output] in Hout.
  - destruct Hout as (pre & -> & Hpre). split; [apply last_snoc|].
    split; [|reflexivity].
    rewrite filter_app, (Hfilter pre Hpre). reflexivity.
  - destruct Hout as [Hall Hlast]. auto.
Qed.

(* ===================================================================== *)
(** ** More on the plotted values: exactness and accuracy                 *)
(* ===================================================================== *)

(** [float64(z)] for an integer of at least 53 bits: the rounding of [z]. *)
Lemma of_int_large (z : Z) :
  2 ^ 52 <= z < 2 ^ 1000 ->
  binary_normalize 53 1024 z 0 false = round_frac z 1 0 /\
  53 <= Zdigits2 z <= 1000.
Proof.
  intros Hz. destruct z as [|p|p]; try lia.
  pose proof (Zdigits2_bounds p) as [Hlo Hhi].
  set (d := Zdigits2 (Z.pos p)) in *.
  assert (Hd : 53 <= d <= 1000).
  { split.
    - assert (52 < d); [|lia]. apply (Z.pow_lt_mono_r_iff 2); [lia|unfold d; cbn; lia|lia].
    - assert (d - 1 < 1000); [|lia].
      apply (Z.pow_lt_mono_r_iff 2); lia. }
  split; [|exact Hd].
  cbn [binary_normalize]. unfold binary_round.
  change (Z.pos (digits2_pos p)) with d.
  rewrite shl_align_id by (unfold fexp, emin; lia).
  apply binary_round_aux_exact; fold d; lia.
Qed.

(** [float64(z)] for every non-negative [int64]: a finite number, equal to
    [z] below [2^53] and within 512 of it above. *)
Lemma of_int_nonneg_int64 (z : Z) :
  0 <= z < 2 ^ 63 ->
  nonneg_normal (F64.of_int z) /\
  (z < 2 ^ 53 -> sval (F64.of_int z) = z * 2 ^ 1074) /\
  Z.abs (sval (F64.of_int z) - z * 2 ^ 1074) <= 512 * 2 ^ 1074.
Proof.
  intros Hz. unfold F64.of_int, F64.prec, F64.emax.
  destruct (Z.lt_ge_cases z (2 ^ 53)) as [Hs|Hl].
  - destruct (of_int_spec z ltac:(lia)) as (Hn & _ & Hv).
    split; [exact Hn|]. split; [intros _; exact Hv|].
    rewrite Hv, Z.sub_diag. cbn. lia.
  - destruct (of_int_large z ltac:(lia)) as [-> Hd].
    assert (Hd63 : Zdigits2 z <= 63).
    { destruct z as [|p|p]; try lia.
      pose proof (Zdigits2_bounds p) as [Hlo _].
      assert (Zdigits2 (Z.pos p) - 1 < 63); [|lia].
      apply (Z.pow_lt_mono_r_iff 2); lia. }
    destruct (round_frac_spec z 1 0 ltac:(lia)
                ltac:(rewrite Z.div_1_r; lia) ltac:(lia)
                ltac:(rewrite Z.div_1_r; lia)) as [Hn _].
    split; [exact Hn|]. split; [lia|].
    pose proof (round_frac_error z 1 0 ltac:(lia)
                  ltac:(rewrite Z.div_1_r; lia) ltac:(lia)
                  ltac:(rewrite Z.div_1_r; lia)) as Herr.
    rewrite Z.div_1_r, Z.mul_1_r, Z.mul_1_l in Herr.
    change (0 + 1074) with 1074 in Herr.
    assert (Hpow : 2 ^ (0 + (Zdigits2 z - 53) + 1074) <= 2 ^ 10 * 2 ^ 1074).
    { rewrite <- Z.pow_add_r by lia. apply Z.pow_le_mono_r; lia. }
    change (2 ^ 10) with 1024 in Hpow. lia.
Qed.

(** X4.  The plotted y-values are the true values.  For a Measurement with a
    non-negative latency, the y-value of its point of series B is exactly
    the latency's whole number of milliseconds; with a count from 0 up to
    [2^53], the y-value of its point of series A is exactly the count; and
    for every non-negative count it is a finite number within 512 of the
    count.  No y-value of such a Measurement is NaN, infinite or negative. *)
Theorem plotted_values_are_exact
    (startTime : time.Time) (ms : list Measurement) (i : nat)
    (m : Measurement) :
  ms !! i = Some m ->
  exists pA pB : plotter.XY,
    fst (dataPoints startTime ms) !! i = Some pA
    /\ snd (dataPoints startTime ms) !! i = Some pB
    /\ (0 <= queryDuration m < 2 ^ 63 ->
        is_integer (plotter.Y pB) (queryDuration m / 1000000))
    /\ (0 <= connections m < 2 ^ 53 ->
        is_integer (plotter.Y pA) (connections m))
    /\ (0 <= connections m < 2 ^ 63 ->
        nonneg_normal (plotter.Y pA)
        /\ Z.abs (sval (plotter.Y pA) - connections m * 2 ^ 1074)
           <= 512 * 2 ^ 1074).
Proof.
  intros Hi. rewrite dataPoints_fmap. cbn [fst snd].
  exists (pointA startTime m), (pointB startTime m).
  rewrite !list_lookup_fmap, Hi. cbn [fmap option_fmap option_map].
  split; [reflexivity|]. split; [reflexivity|].
  cbn [pointA pointB plotter.Y]. unfold is_integer. split; [|split].
  - intros Hd. unfold time.Milliseconds.
    rewrite Z.quot_div_nonneg by lia.
    assert (Hms : 0 <= queryDuration m / 1000000 < 2 ^ 53).
    { split; [apply Z.div_pos; lia|]. apply Z.div_lt_upper_bound; lia. }
    destruct (of_int_nonneg_int64 (queryDuration m / 1000000) ltac:(lia))
      as (Hn & Hv & _).
    split; [exact Hn|apply Hv; lia].
  - intros Hc.
    destruct (of_int_nonneg_int64 (connections m) ltac:(lia)) as (Hn & Hv & _).
    split; [exact Hn|apply Hv; lia].
  - intros Hc.
    destruct (of_int_nonneg_int64 (connections m) Hc) as (Hn & _ & He).
    split; assumption.
Qed.

(* ===================================================================== *)
(** ** More on main: the startup, what is printed, what is recorded       *)
(* ===================================================================== *)

(** X15.  Startup.  Only [os.Args[1]] matters: the program name and any further
    argument change nothing.  With fewer than two arguments [main] fails
    fatally before parsing anything.  Sampling starts exactly when the DSN
    parses and the connection opens; [Open] is called only with the options
    that [ParseDSN] returned, signals are registered only after the
    connection is open, and a failure is the last thing the startup does. *)
Theorem startup_depends_on_dsn (env : StartEnv) :
  (forall (a0 a0' dsn : string) (rest rest' : list string),
      startup (a0 :: dsn :: rest) env = startup (a0' :: dsn :: rest') env)
  /\ (forall args : list string,
        (length args < 2)%nat ->
        startup args env
          = ([EvStartFatal "Please provide ClickHouse DSN as argument"], None))
  /\ (forall (args : list string) (s : Machine.State),
        snd (startup args env) = Some s <->
        s = Machine.init /\
        exists dsn opts,
          args !! 1%nat = Some dsn /\ ParseDSN env dsn = ParseOk opts /\
          Open env opts = None /\
          fst (startup args env) = [EvParseDSN dsn; EvOpen opts; EvNotify])
  /\ (forall args : list string,
        snd (startup args env) = None ->
        exists pre msg,
          fst (startup args env) = pre ++ [EvStartFatal msg] /\
          (EvNotify ∉ pre) /\
          (forall opts, EvOpen opts ∈ pre ->
             exists dsn, args !! 1%nat = Some dsn /\
                         ParseDSN env dsn = ParseOk opts)).
Proof.
  split; [reflexivity|]. split; [|split].
  - intros [|a0 [|dsn rest]] Hlen; cbn in Hlen; try lia; reflexivity.
  - intros args s. unfold startup. split.
    + destruct args as [|a0 [|dsn rest]]; try discriminate.
      destruct (ParseDSN env dsn) as [opts|err] eqn:HP; try discriminate.
      destruct (Open env opts) as [err|] eqn:HO; try discriminate.
      intros [= <-]. split; [reflexivity|].
      exists dsn, opts. auto.
    + intros (-> & dsn & opts & Hdsn & HP & HO & _).
      destruct args as [|a0 [|dsn' rest]]; try discriminate.
      injection Hdsn as ->. rewrite HP, HO. reflexivity.
  - intros args. unfold startup.
    destruct args as [|a0 [|dsn rest]].
    1-2: intros _; exists [], "Please provide ClickHouse DSN as argument";
      split; [reflexivity|]; split; [apply not_elem_of_nil|];
      intros opts Hin; apply elem_of_nil in Hin; contradiction.
    destruct (ParseDSN env dsn) as [opts|err] eqn:HP.
    + destruct (Open env opts) as [err|] eqn:HO; [|discriminate].
      intros _. exists [EvParseDSN dsn; EvOpen opts], err.
      split; [reflexivity|]. split.
      * intros Hin. not_in_list Hin.
      * intros opts' Hin.
        apply elem_of_cons in Hin as [Hin|Hin]; [discriminate|].
        apply elem_of_cons in Hin as [Hin|Hin];
          [|apply elem_of_nil in Hin; contradiction].
        injection Hin as ->. exists dsn. auto.
    + intros _. exists [EvParseDSN dsn], err.
      split; [reflexivity|]. split.
      * intros Hin. not_in_list Hin.
      * intros opts' Hin. not_in_list Hin.
Qed.

Module MachineMore5.
Import Machine.

Lemma printed_counts_app (l1 l2 : list event) :
  printed_counts (l1 ++ l2) = printed_counts l1 ++ printed_counts l2.
Proof. apply omap_app. Qed.

Lemma printed_counts_collect (tk : Tick) :
  printed_counts (snd (collectMetrics tk)) = ok_counts [tk].
Proof.
  unfold collectMetrics, ok_counts. cbn [omap list_omap].
  destruct (tick_result tk); reflexivity.
Qed.

Lemma printed_counts_render (env : RenderEnv) (w : World) :
  printed_counts (output (snd (generateChart env w)))
    = printed_counts (output w).
Proof.
  destruct (generateChart_cases env w)
    as [(H0 & ->)|[(e & H0 & HA & ->)|[(e & H0 & HA & HB & ->)
       |[(e & H0 & HA & HB & HC & ->)|[(e & H0 & HA & HB & HC & HW & ->)
       |(H0 & HA & HB & HC & HW & ->)]]]]];
    cbn [snd emit output]; rewrite printed_counts_app; cbn;
    apply app_nil_r.
Qed.

Lemma step_printed (s s' : State) (l : label) :
  step s l = Some s' ->
  printed_counts (output (world s'))
    = printed_counts (output (world s)) ++ ok_counts (ticks_of [l]).
Proof.
  unfold step.
  destruct l, (mainPC s), (samplerPC s); try discriminate;
    try (intros [= <-]; cbn; rewrite app_nil_r; reflexivity).
  all: try (pose proof (printed_counts_collect tk) as Hc;
            destruct (collectMetrics tk) as [m0 evs]; intros [= <-];
            cbn [world emit output]; rewrite printed_counts_app;
            cbn [snd] in Hc; rewrite Hc; reflexivity).
  all: pose proof (printed_counts_render env
         (emit [EvLog "Stopping monitoring and generating chart..."] (world s)))
         as Hr;
    destruct (generateChart env _) as [err w']; intros [= <-];
    cbn [snd] in Hr; cbn [world ticks_of omap list_omap is_collect ok_counts];
    rewrite app_nil_r;
    destruct err; cbn [emit output]; rewrite ?printed_counts_app, Hr;
    cbn [emit output]; rewrite printed_counts_app; cbn; rewrite ?app_nil_r;
    reflexivity.
Qed.

Lemma run_printed (ls : list label) :
  forall s s' : State,
    run s ls = Some s' ->
    printed_counts (output (world s'))
      = printed_counts (output (world s)) ++ ok_counts (ticks_of ls).
Proof.
  induction ls as [|l ls IH]; intros s s' Hrun; cbn [run] in Hrun.
  - injection Hrun as <-. cbn. now rewrite app_nil_r.
  - destruct (step s l) as [s1|] eqn:Hstep; [|discriminate].
    rewrite (IH _ _ Hrun), (step_printed _ _ _ Hstep), <- app_assoc.
    f_equal. change (l :: ls) with ([l] ++ ls).
    unfold ticks_of, ok_counts. rewrite !omap_app. reflexivity.
Qed.

Lemma measure_latency (tk : Tick) :
  tick_clock_ok tk ->
  0 <= queryDuration (measure tk) <= time.maxDuration.
Proof.
  unfold tick_clock_ok, measure, collectMetrics. intros Hc.
  destruct (tick_result tk); cbn [fst queryDuration].
  - pose proof (Sub_mono (tick_start tk) (tick_end tk) (tick_start tk)
                  ltac:(lia)).
    pose proof (Sub_range (tick_end tk) (tick_start tk)). lia.
  - unfold time.maxDuration. lia.
Qed.

End MachineMore5.

(** X13.  What is printed is what is recorded: in every execution the counts
    printed by "Collected metrics" are exactly the counts returned by the
    successful queries so far, in the order of the ticks; neither a failed
    tick nor the renderer prints one. *)
Theorem printed_counts_match_ticks
    (ls : list Machine.label) (s : Machine.State) :
  Machine.run Machine.init ls = Some s ->
  printed_counts (output (Machine.world s))
    = ok_counts (Machine.ticks_of ls).
Proof.
  intros Hrun. exact (MachineMore5.run_printed ls _ _ Hrun).
Qed.

(** X14.  Recorded latencies are sane: in every execution in which the clock does
    not go back during a tick, every Measurement in the log has a latency
    between 0 and the largest Duration. *)
Theorem recorded_latencies_in_range
    (ls : list Machine.label) (s : Machine.State) :
  Machine.run Machine.init ls = Some s ->
  Forall tick_clock_ok (Machine.ticks_of ls) ->
  Forall (fun m => 0 <= queryDuration m <= time.maxDuration)
    (measurements (Machine.world s)).
Proof.
  intros Hrun Hticks.
  pose proof (MachineFacts.run_log ls _ _ Hrun) as Hlog. cbn in Hlog.
  assert (Hall : Forall (fun m => 0 <= queryDuration m <= time.maxDuration)
                   (Machine.measure <$> Machine.ticks_of ls)).
  { apply Forall_fmap.
    eapply Forall_impl; [exact Hticks|].
    intros tk Hc. exact (MachineMore5.measure_latency tk Hc). }
  rewrite <- Hlog in Hall. apply Forall_app in Hall. tauto.
Qed.

(** X5.  The plotted times are accurate.  In a chronological log, for a
    Measurement taken at most the largest Duration (2^63 - 1 ns, about 292
    years) and less than [2^k] seconds after the first one, the relative
    time plotted is a finite non-negative float64 within [2^(k-53) + 2^-54]
    seconds of the true elapsed time, [(timestamp_i - t0) / 10^9] (the
    inequality below is this bound in units of [2^-1074 / (2 * 10^9)]
    seconds).  In every such case it is within [2^-19 + 2^-54] seconds,
    less than 2 microseconds, of the truth. *)
Theorem relative_times_are_accurate
    (m0 : Measurement) (rest : list Measurement) (i : nat) (m : Measurement)
    (k : Z) :
  chronological (m0 :: rest) ->
  (m0 :: rest) !! i = Some m ->
  0 <= k ->
  timestamp m - timestamp m0 < 1000000000 * 2 ^ k ->
  timestamp m - timestamp m0 <= time.maxDuration ->
  exists p : plotter.XY,
    fst (dataPoints (timestamp m0) (m0 :: rest)) !! i = Some p
    /\ nonneg_normal (plotter.X p)
    /\ 2 * Z.abs (sval (plotter.X p) * 1000000000
                  - (timestamp m - timestamp m0) * 2 ^ 1074)
       <= 1000000000 * (2 ^ (k + 1022) + 2 ^ 1021)
    /\ 2 * Z.abs (sval (plotter.X p) * 1000000000
                  - (timestamp m - timestamp m0) * 2 ^ 1074)
       <= 1000000000 * (2 ^ (34 + 1022) + 2 ^ 1021).
Proof.
  intros Hc Hi Hk Hdk Hfit.
  rewrite dataPoints_fmap. cbn [fst].
  exists (pointA (timestamp m0) m).
  rewrite list_lookup_fmap, Hi. split; [reflexivity|].
  cbn [pointA plotter.X]. unfold relativeTime.
  pose proof (chronological_le _ Hc 0%nat i m0 m ltac:(lia) eq_refl Hi) as H0.
  rewrite Sub_exact by (unfold time.minDuration; lia).
  unfold time.maxDuration in Hfit.
  set (d := timestamp m - timestamp m0) in *.
  destruct (Seconds_error d k ltac:(lia) Hk Hdk) as [Hn He].
  destruct (Seconds_error d 34 ltac:(lia) ltac:(lia) ltac:(lia)) as [_ He34].
  auto.
Qed.

(* ===================================================================== *)
(** ** The properties above, at work on concrete runs                     *)
(* ===================================================================== *)

Lemma plotted_values_are_exact_witness :
  exists pB : plotter.XY,
    snd (dataPoints 0 sample_log) !! 1%nat = Some pB
    /\ is_integer (plotter.Y pB) 12.
Proof.
  destruct (plotted_values_are_exact 0 sample_log 1%nat
              (mkMeasurement (0 + 300000000) 5 12000000) eq_refl)
    as (pA & pB & _ & HB & Hlat & _).
  exists pB. split; [exact HB|].
  exact (Hlat ltac:(cbn; lia)).
Defined.

Lemma relative_times_are_accurate_witness :
  exists p : plotter.XY,
    fst (dataPoints 0 sample_log) !! 1%nat = Some p
    /\ nonneg_normal (plotter.X p)
    /\ 2 * Z.abs (sval (plotter.X p) * 1000000000 - 300000000 * 2 ^ 1074)
       <= 1000000000 * (2 ^ (0 + 1022) + 2 ^ 1021).
Proof.
  assert (Hc : chronological sample_log) by (cbn; lia).
  destruct (relative_times_are_accurate
              (mkMeasurement (0 + 0) 3 10000000) (tail sample_log) 1%nat
              (mkMeasurement (0 + 300000000) 5 12000000) 0 Hc eq_refl
              ltac:(lia) ltac:(vm_compute; reflexivity)
              ltac:(vm_compute; discriminate))
    as (p & Hp & Hn & He & _).
  exists p. split; [exact Hp|]. split; [exact Hn|exact He].
Defined.

Lemma main_steps_in_program_order_witness :
  omap main_kind sample_schedule = [0; 1; 2; 3]%nat.
Proof.
  exact (proj1 (main_steps_in_program_order sample_schedule _ eq_refl)).
Defined.

Lemma log_is_append_only_witness :
  exists s : Machine.State,
    Machine.run Machine.init sample_schedule = Some s
    /\ measurements (Machine.world Machine.init)
         `prefix_of` measurements (Machine.world s).
Proof.
  eexists. split; [reflexivity|].
  exact (proj1 (log_is_append_only sample_schedule Machine.init _ eq_refl)).
Defined.

Lemma stop_admits_only_inflight_sample_witness :
  exists s s' : Machine.State,
    Machine.run Machine.init
      [Machine.LCollect sample_tick; Machine.LSignal; Machine.LSendBlock]
      = Some s
    /\ Machine.run s [Machine.LAppend; Machine.LWake; Machine.LHandshake]
       = Some s'
    /\ measurements (Machine.world s') = [mkMeasurement 0 3 10000000].
Proof.
  let r := eval vm_compute in
        (Machine.run Machine.init
           [Machine.LCollect sample_tick; Machine.LSignal;
            Machine.LSendBlock]) in
  match r with
  | Some ?s =>
      let r' := eval vm_compute in
            (Machine.run s
               [Machine.LAppend; Machine.LWake; Machine.LHandshake]) in
      match r' with
      | Some ?s' =>
          exists s, s'; split; [reflexivity|]; split; [reflexivity|];
          exact (proj2 (proj2 (proj2
                   (stop_admits_only_inflight_sample
                      [Machine.LAppend; Machine.LWake; Machine.LHandshake]
                      s s' eq_refl eq_refl))) eq_refl)
      end
  end.
Defined.

Lemma log_stays_chronological_witness :
  exists s : Machine.State,
    Machine.run Machine.init
      (Machine.tick_labels sample_tick ++ Machine.tick_labels failed_tick)
      = Some s
    /\ chronological (measurements (Machine.world s)).
Proof.
  eexists. split; [reflexivity|].
  apply (log_stays_chronological
           (Machine.tick_labels sample_tick ++ Machine.tick_labels failed_tick)
           _ eq_refl).
  cbn. lia.
Defined.

Lemma session_renders_every_tick_witness :
  exists (s : Machine.State) (out : list event) (A B : plotter.XYs),
    Machine.run Machine.init
      (([sample_tick; failed_tick] ≫= Machine.tick_labels)
       ++ [Machine.LSignal; Machine.LSendBlock; Machine.LHandshake;
           Machine.LRender quiet_env]) = Some s
    /\ Machine.mainPC s = Machine.MDone None
    /\ Machine.samplerPC s = Machine.SReturned
    /\ measurements (Machine.world s)
       = Machine.measure <$> [sample_tick; failed_tick]
    /\ length A = length [sample_tick; failed_tick]
    /\ length B = length [sample_tick; failed_tick]
    /\ output (Machine.world s)
       = out ++ [EvLog "Stopping monitoring and generating chart...";
                 EvDraw 0 0 (connectionsPlot A) tiles img;
                 EvDraw 1 0 (durationPlot B) tiles img;
                 EvCreate (filename quiet_env);
                 EvWrite (filename quiet_env) img;
                 EvLog ("Chart saved as " +:+ filename quiet_env);
                 EvClose (filename quiet_env)].
Proof.
  apply (session_renders_every_tick [sample_tick; failed_tick] quiet_env).
  - discriminate.
  - intros xys. reflexivity.
  - reflexivity.
  - reflexivity.
Defined.

Lemma stop_before_first_sample_witness :
  exists s : Machine.State,
    Machine.run Machine.init
      ([Machine.LSignal; Machine.LSendBlock]
       ++ [Machine.LHandshake; Machine.LRender quiet_env]) = Some s
    /\ Machine.mainPC s = Machine.MDone (Some "no measurements to plot")
    /\ main_exit s = Some (false, 1).
Proof.
  eexists. split; [reflexivity|].
  pose proof (stop_before_first_sample
                [Machine.LSignal; Machine.LSendBlock] quiet_env _
                eq_refl eq_refl) as (Hpc & _ & _ & Hexit).
  split; [exact Hpc|exact Hexit].
Defined.

Lemma main_exits_fatally_iff_render_fails_witness :
  exists s : Machine.State,
    Machine.run Machine.init sample_schedule = Some s
    /\ main_exit s = Some (true, 0).
Proof.
  eexists. split; [reflexivity|].
  exact (proj2 (proj2 (proj2
           (main_exits_fatally_iff_render_fails sample_schedule _ None
              eq_refl eq_refl)))).
Defined.

Lemma printed_counts_match_ticks_witness :
  exists s : Machine.State,
    Machine.run Machine.init
      (Machine.tick_labels sample_tick ++ Machine.tick_labels failed_tick)
      = Some s
    /\ printed_counts (output (Machine.world s)) = [3].
Proof.
  eexists. split; [reflexivity|].
  exact (printed_counts_match_ticks
           (Machine.tick_labels sample_tick ++ Machine.tick_labels failed_tick)
           _ eq_refl).
Defined.

Lemma recorded_latencies_in_range_witness :
  exists s : Machine.State,
    Machine.run Machine.init
      (Machine.tick_labels sample_tick ++ Machine.tick_labels failed_tick)
      = Some s
    /\ Forall (fun m => 0 <= queryDuration m <= time.maxDuration)
         (measurements (Machine.world s)).
Proof.
  eexists. split; [reflexivity|].
  apply (recorded_latencies_in_range
           (Machine.tick_labels sample_tick ++ Machine.tick_labels failed_tick)
           _ eq_refl).
  repeat constructor; unfold tick_clock_ok; cbn; lia.
Defined.
